(** * calendar-time-analysis: hours by category from an iCalendar feed

    A shallow embedding of [calendar-time-analysis.py]: the aggregator
    [add_event], the expansion of a recurring VEVENT through dateutil's
    [rruleset], and the matching loop that reconciles generated instants
    with the VEVENTs carrying a RECURRENCE-ID.

    Modelling conventions.
    - A [timedelta] is a number of seconds in [Z].
    - A [datetime] is timezone aware: its wall clock (seconds since
      1970-01-01T00:00:00 on the local clock) and the UTC offset of its
      tzinfo (icalendar hands out pytz tzinfo instances, each of which has
      one fixed offset).  Floating (naive) times are outside the model.
    - Characters are Stdlib [ascii]; [isalnum] and [lower] are Python's
      [str.isalnum] and [str.lower] on the ASCII range.
    - The two libraries the script calls, [re] and [dateutil.rrule], are
      Section variables; the default value of [--cregex] is also given as an
      executable matcher, [default_cregex_match].
    - A feed is a list of VEVENTs that have a UID, a DTSTART, a DTEND and
      at most one EXDATE property, as lines 111 to 115 and 130 take for
      granted.  The exceptions of the model are those [rrulestr] raises in
      the loop, the ValueError of [date.fromisoformat] at lines 43 to 49
      and the NameError of line 158. *)

From Stdlib Require Import ZArith List String Ascii Bool Lia Permutation.
From Stdlib Require Import Sorted.
Import ListNotations.

Local Open Scope string_scope.
Local Open Scope Z_scope.

(** ** Strings *)

(** [str.isalnum] on one ASCII character. *)
Definition isalnum (c : ascii) : bool :=
  let n := nat_of_ascii c in
  ((48 <=? n) && (n <=? 57) || (65 <=? n) && (n <=? 90)
   || (97 <=? n) && (n <=? 122))%nat.

Definition lower_char (c : ascii) : ascii :=
  let n := nat_of_ascii c in
  if ((65 <=? n) && (n <=? 90))%nat then ascii_of_nat (n + 32) else c.

(** [s.lower()] *)
Fixpoint lower (s : string) : string :=
  match s with
  | EmptyString => EmptyString
  | String c t => String (lower_char c) (lower t)
  end.

(** [''.join(l for l in s if l.isalnum())] *)
Fixpoint alnum_join (s : string) : string :=
  match s with
  | EmptyString => EmptyString
  | String c t => if isalnum c then String c (alnum_join t) else alnum_join t
  end.

(** [summary[:200]] *)
Definition slice200 (s : string) : string := substring 0 200 s.

(** [all(c.isalnum() for c in s)] *)
Fixpoint all_alnum (s : string) : bool :=
  match s with
  | EmptyString => true
  | String c t => isalnum c && all_alnum t
  end.

(** ** Dates, datetimes and timedeltas *)

Definition timedelta := Z.

(** A [date] is a day count from 1970-01-01. *)
Definition date := Z.

(** The fixed UTC offset of a tzinfo instance, in seconds. *)
Definition tzinfo := Z.

Record datetime := mk_datetime { wall : Z; utcoffset : tzinfo }.

Definition UTC : tzinfo := 0.

(** The instant a datetime denotes, in seconds since the epoch. *)
Definition timestamp (t : datetime) : Z := wall t - utcoffset t.

(** [a == b] on aware datetimes compares instants. *)
Definition dt_eqb (a b : datetime) : bool := timestamp a =? timestamp b.

(** [a - b] on aware datetimes. *)
Definition dt_sub (a b : datetime) : timedelta := timestamp a - timestamp b.

(** [t.date()]: the date on the datetime's own wall clock. *)
Definition date_of (t : datetime) : date := wall t / 86400.

(** [t.astimezone(tz)] keeps the instant and moves the wall clock. *)
Definition astimezone (t : datetime) (tz : tzinfo) : datetime :=
  {| wall := timestamp t + tz; utcoffset := tz |}.

(** [t.replace(tzinfo = tz)] keeps the wall clock and changes the tag. *)
Definition replace_tzinfo (t : datetime) (tz : tzinfo) : datetime :=
  {| wall := wall t; utcoffset := tz |}.

(** *** ISO calendar *)

(** Gregorian year of a day count. *)
Definition year_of_days (days : Z) : Z :=
  let z := days + 719468 in
  let era := z / 146097 in
  let doe := z - era * 146097 in
  let yoe := (doe - doe / 1460 + doe / 36524 - doe / 146096) / 365 in
  let doy := doe - (365 * yoe + yoe / 4 - yoe / 100) in
  let mp := (5 * doy + 2) / 153 in
  let m := if mp <? 10 then mp + 3 else mp - 9 in
  yoe + era * 400 + (if m <=? 2 then 1 else 0).

(** Day count of January 1st of a year. *)
Definition days_of_jan1 (y : Z) : Z :=
  let y' := y - 1 in
  let era := y' / 400 in
  let yoe := y' - era * 400 in
  era * 146097 + (yoe * 365 + yoe / 4 - yoe / 100 + 306) - 719468.

(** [d.isocalendar()]: ISO year, ISO week, ISO weekday (Monday is 1). *)
Definition isocalendar (d : date) : Z * Z * Z :=
  let wd := (d + 3) mod 7 + 1 in
  let thursday := d - wd + 4 in
  let y := year_of_days thursday in
  (y, (thursday - days_of_jan1 y) / 7 + 1, wd).

Definition iso_year (t : datetime) : Z := fst (fst (isocalendar (date_of t))).
Definition iso_week (t : datetime) : Z := snd (fst (isocalendar (date_of t))).

(** ** The default category pattern

    [--cregex] defaults to
    [^(\[[A-Z-a-z-0-9-+_\\\/\|]*\])|([A-Z-a-z-0-9-+_\\\/\|]{1,7} - )].
    The bracket expression denotes the ASCII letters and digits and the six
    characters [- + _ \ / |]. *)

Definition in_cregex_class (c : ascii) : bool :=
  isalnum c
  || match nat_of_ascii c with
     | 45%nat | 43%nat | 95%nat | 92%nat | 47%nat | 124%nat => true
     | _ => false
     end.

(** The longest prefix of class characters, and what follows it. *)
Fixpoint span_class (s : string) : string * string :=
  match s with
  | String c t =>
      if in_cregex_class c
      then let '(p, r) := span_class t in (String c p, r)
      else (EmptyString, s)
  | EmptyString => (EmptyString, EmptyString)
  end.

(** Second alternative: one to seven class characters, then [" - "].  The
    repetition is greedy and neither the space nor a class character can be
    given back, so the run has to be the whole class prefix. *)
Definition cregex_dash (s : string) : option string :=
  let '(p, r) := span_class s in
  if ((1 <=? String.length p) && (String.length p <=? 7))%nat && prefix " - " r
  then Some (p ++ " - ") else None.

(** First alternative: [[], class characters, []]. *)
Definition cregex_bracket (s : string) : option string :=
  match s with
  | String "["%char t =>
      let '(p, r) := span_class t in
      match r with
      | String "]"%char _ => Some ("[" ++ p ++ "]")
      | _ => None
      end
  | _ => None
  end.

(** [m[0]] for [m = category_pattern.match(s)] under the default pattern;
    [None] when there is no match. *)
Definition default_cregex_match (s : string) : option string :=
  match cregex_bracket s with
  | Some m => Some m
  | None => cregex_dash s
  end.

Definition CATEGORY_IGNORED : string := "_Uncategorized_".

(** ** The bucket dictionary

    [event_dict] is a Python dict: string keys in insertion order, each
    bound to the pair of a running total and the list of its events. *)

Record Event := mk_Event {
  ev_dtstart : datetime;
  ev_duration : timedelta;
  ev_summary : string;
  ev_year : Z;
  ev_week : Z;
  ev_category : string }.

Definition bucket : Type := timedelta * list Event.
Definition dict : Type := list (string * bucket).

Definition keys (d : dict) : list string := map fst d.

(** [d[k]] when [k in d]. *)
Fixpoint dict_get (k : string) (d : dict) : option bucket :=
  match d with
  | [] => None
  | (k', v) :: t => if String.eqb k' k then Some v else dict_get k t
  end.

(** [d[k] = v]: an existing key keeps its place, a new key goes last. *)
Fixpoint dict_set (k : string) (v : bucket) (d : dict) : dict :=
  match d with
  | [] => [(k, v)]
  | (k', v') :: t =>
      if String.eqb k' k then (k', v) :: t else (k', v') :: dict_set k v t
  end.

(** The loop [for e in event_dict: if e.lower() == category.lower(): ...]:
    the first key equal to [category] up to case, else [category]. *)
Fixpoint fold_case (ks : list string) (category : string) : string :=
  match ks with
  | [] => category
  | e :: t =>
      if String.eqb (lower e) (lower category) then e else fold_case t category
  end.

(** The two module-level globals of the aggregator. *)
Record globals := mk_globals {
  event_dict : dict;
  total_duration : timedelta }.

Definition globals0 : globals :=
  {| event_dict := []; total_duration := 0 |}.

(** Sum of the totals of the buckets whose key is not the sentinel. *)
Fixpoint counted_total (d : dict) : timedelta :=
  match d with
  | [] => 0
  | (k, (tot, _)) :: t =>
      (if String.eqb k CATEGORY_IGNORED then 0 else tot) + counted_total t
  end.

Definition sum_durations (evs : list Event) : timedelta :=
  fold_right (fun e acc => ev_duration e + acc) 0 evs.

Definition count_events (d : dict) : nat :=
  fold_right (fun kv acc => (List.length (snd (snd kv)) + acc)%nat) 0%nat d.

(** ** VEVENT components *)

(** A VEVENT whose DTSTART carries a time.  [SUMMARY] and [RRULE] are
    [None] when the property is absent; [RRULE] is the text of the rule
    as icalendar parsed it ([to_ical().decode('utf-8')]), which is empty
    for a rule without any [NAME=value] part, as icalendar makes of
    [RRULE:garbage]; [EXDATE] lists the [dts] of the one EXDATE property,
    empty when absent. *)
Record component := mk_component {
  UID : string;
  SUMMARY : option string;
  DTSTART : datetime;
  DTEND : datetime;
  RRULE : option string;
  EXDATE : list datetime;
  RECURRENCE_ID : option datetime }.

(** What [calendar.walk("VEVENT")] yields: a VEVENT whose DTSTART is a
    plain date (VALUE=DATE), or a timed one. *)
Inductive vevent :=
| DateEvent (uid : string) (summary : option string) (dstart dend : date)
| TimedEvent (c : component).

(** [str(component.get('SUMMARY'))] *)
Definition str_summary (s : option string) : string :=
  match s with Some x => x | None => "None" end.

(** Truth value of [e.get('SUMMARY')]: absent and empty are both false. *)
Definition summary_or (s : option string) (default : string) : string :=
  match s with
  | Some x => if String.eqb x "" then default else x
  | None => default
  end.

Definition option_eqb {A} (eqb : A -> A -> bool) (a b : option A) : bool :=
  match a, b with
  | Some x, Some y => eqb x y
  | None, None => true
  | _, _ => false
  end.

Fixpoint list_eqb {A} (eqb : A -> A -> bool) (a b : list A) : bool :=
  match a, b with
  | [], [] => true
  | x :: a', y :: b' => eqb x y && list_eqb eqb a' b'
  | _, _ => false
  end.

(** [a == b] on components: property by property, with Python's equality
    on each value. *)
Definition component_eqb (a b : component) : bool :=
  String.eqb (UID a) (UID b)
  && option_eqb String.eqb (SUMMARY a) (SUMMARY b)
  && dt_eqb (DTSTART a) (DTSTART b)
  && dt_eqb (DTEND a) (DTEND b)
  && option_eqb String.eqb (RRULE a) (RRULE b)
  && list_eqb dt_eqb (EXDATE a) (EXDATE b)
  && option_eqb dt_eqb (RECURRENCE_ID a) (RECURRENCE_ID b).

(** [l.remove(e)]: drop the first element equal to [e]. *)
Fixpoint list_remove (e : component) (l : list component) : list component :=
  match l with
  | [] => []
  | x :: t => if component_eqb x e then t else x :: list_remove e t
  end.

(** One INFO record of the log file: the message and the fields of
    [DEBUG_INFO]. *)
Record log_record := mk_log {
  log_msg : string;
  log_uid : string;
  log_summary : string;
  log_dtstart : datetime;
  log_dtend : datetime }.

(** A call [add_event(dtstart, duration, summary)]. *)
Definition occurrence : Type := datetime * timedelta * string.

(** The exceptions [rrulestr] raises on a rule text. *)
Inductive exn := ValueError | TypeError.

(** [list(rrulestr(text, dtstart = dtstart))]: the instants of the rule,
    or the exception [rrulestr] ends with. *)
Inductive rrule_result :=
| Generated (instants : list datetime)
| Raises (e : exn).

(** The truth value of [component.get('RRULE')], with the text of the
    rule when it is true.  A vRecur is a dictionary: it is false when it
    has no part, which is when its text is empty. *)
Definition rrule_text (c : component) : option string :=
  match RRULE c with
  | Some text => if String.eqb text "" then None else Some text
  | None => None
  end.

(** The state of the script.  [calls] and [consumed] are history
    variables: the calls of [add_event] so far, each with the pool record
    it was built from if any, and the records removed from
    [recurrence_list] so far.  [raised] is set when an exception has
    ended the script. *)
Record state := mk_state {
  glob : globals;
  recurrence_list : list component;
  log : list log_record;
  calls : list (occurrence * option component);
  consumed : list component;
  raised : option exn }.

(** ** dateutil's [rruleset] *)

(** Iterating an [rruleset] skips an item equal to the one before it. *)
Fixpoint drop_repeats (last : option datetime) (l : list datetime)
  : list datetime :=
  match l with
  | [] => []
  | x :: t =>
      match last with
      | Some y => if dt_eqb y x then drop_repeats (Some x) t
                  else x :: drop_repeats (Some x) t
      | None => x :: drop_repeats (Some x) t
      end
  end.

(** [list(rrset)] for an [rruleset] holding one rule that generates
    [generated] and the exclusion dates [exdates]: the generated items, in
    order, less those equal to an exclusion date. *)
Definition rruleset_list (generated exdates : list datetime) : list datetime :=
  filter (fun g => negb (existsb (dt_eqb g) exdates))
         (drop_repeats None generated).

(** ** Command-line arguments and the date window *)

(** The parsed arguments the script reads: [--week], [--dstart] and
    [--dend] are dates ([type=date.fromisoformat]), [None] by default.
    A date of Python lies from 0001-01-01 to 9999-12-31. *)
Record arguments := mk_arguments {
  args_week : option date;
  args_dstart : option date;
  args_dend : option date }.

Definition is_None {A : Type} (o : option A) : bool :=
  match o with None => true | Some _ => false end.

Definition check_args (args : arguments) : bool :=
  if (is_None (args_week args) && is_None (args_dstart args)
      && is_None (args_dend args))
     || (negb (is_None (args_week args)) && is_None (args_dstart args)
         && is_None (args_dend args))
     || (is_None (args_week args) && negb (is_None (args_dstart args))
         && negb (is_None (args_dend args)))
  then true else false.

(** CPython's [datetime] counts days from 0001-01-01, which is day 1. *)
Definition toordinal (d : date) : Z := d + 719163.
Definition fromordinal (n : Z) : date := n - 719163.

Definition is_leap (y : Z) : bool :=
  (y mod 4 =? 0) && (negb (y mod 100 =? 0) || (y mod 400 =? 0)).

(** [_isoweek1monday]: the ordinal of the Monday of ISO week 1. *)
Definition isoweek1monday (y : Z) : Z :=
  let firstday := toordinal (days_of_jan1 y) in
  let firstweekday := (firstday + 6) mod 7 in
  let week1monday := firstday - firstweekday in
  if firstweekday >? 3 then week1monday + 7 else week1monday.

(** [date.fromisocalendar(y, w, d)]; [None] for the ValueError of a week
    or a day out of range.  The bounds 1..9999 on the year are left out,
    as dates are unbounded here; [iso_week_day] below checks them. *)
Definition fromisocalendar (y w d : Z) : option date :=
  let out_of_range :=
    if (0 <? w) && (w <? 53) then false
    else if w =? 53 then
           let first_weekday := toordinal (days_of_jan1 y) mod 7 in
           negb ((first_weekday =? 4) || ((first_weekday =? 3) && is_leap y))
         else true in
  if out_of_range then None
  else if negb ((0 <? d) && (d <? 8)) then None
  else Some (fromordinal (isoweek1monday y + (w - 1) * 7 + (d - 1))).

(** [date.min] and [date.max]: 0001-01-01 and 9999-12-31. *)
Definition date_min : date := fromordinal 1.
Definition date_max : date := fromordinal 3652059.

(** [date.fromisoformat(d.strftime('%G-W%V') + '-n')] for a digit [n];
    [None] when it raises ValueError.  [%G] writes the ISO year without
    padding, and [fromisoformat] wants four digits of year: the text of
    a year below 1000 is refused.  The day asked for must be a date: the
    Sunday of the last week of 9999 is past [date.max]. *)
Definition iso_week_day (d : date) (n : Z) : option date :=
  let '(y, w, _) := isocalendar d in
  if (1000 <=? y) && (y <=? 9999) then
    match fromisocalendar y w n with
    | Some r => if (date_min <=? r) && (r <=? date_max) then Some r else None
    | None => None
    end
  else None.

(** [d.strftime('in %G-W%V')], as the ISO year and week it spells. *)
Definition week_label (d : date) : Z * Z := fst (isocalendar d).

(** A Python name: not assigned yet, or bound to a value. *)
Inductive binding (A : Type) : Type :=
| Unbound
| Bound (v : A).
Arguments Unbound {A}.
Arguments Bound {A} v.

(** How the script stands after lines 31 to 50: [parser.error] has ended
    it, [date.fromisoformat] has raised ValueError, or [args.dstart],
    [args.dend] and the name [cw] are as given.  A value of [cw] is
    [None] or a week label. *)
Inductive startup :=
| parser_error
| format_error
| started (dstart dend : option date) (cw : binding (option (Z * Z))).

Definition resolve_window (args : arguments) (today : date) : startup :=
  if negb (check_args args) then parser_error
  else
    let defaulted :=
      if is_None (args_dstart args) || is_None (args_dend args) then
        match iso_week_day today 1, iso_week_day today 7 with
        | Some a, Some b => Some (Some a, Some b, Bound (Some (week_label today)))
        | _, _ => None
        end
      else Some (args_dstart args, args_dend args, Unbound) in
    match defaulted with
    | None => format_error
    | Some (ds, de, cw) =>
        match args_week args with
        | None => started ds de cw
        | Some w =>
            match iso_week_day w 1, iso_week_day w 7 with
            | Some a, Some b => started (Some a) (Some b) (Bound (Some (week_label a)))
            | _, _ => format_error
            end
        end
    end.

(** The Monday of the week of [d]. *)
Definition monday_of (d : date) : date := d - (d + 3) mod 7.

(** The weeks both ends of which [date.fromisoformat] gives: those of
    the ISO years 1000 to 9999 whose Monday and Sunday are dates. *)
Definition week_fits (d : date) : bool :=
  (1000 <=? fst (week_label d)) && (fst (week_label d) <=? 9999)
  && (date_min <=? monday_of d) && (monday_of d + 6 <=? date_max).

(** ** Looking for the calendar file *)

(** [f.endswith(suffix)] *)
Definition endswith (f suffix : string) : bool :=
  (String.length suffix <=? String.length f)%nat
  && String.eqb (substring (String.length f - String.length suffix)
                           (String.length suffix) f) suffix.

(** The inner loop over [files]: the first name ending in [.ics]. *)
Fixpoint first_ics (files : list string) : option string :=
  match files with
  | [] => None
  | f :: t => if endswith f ".ics" then Some f else first_ics t
  end.

(** Lines 34 to 40 over what [os.walk('.')] yields, a triple of root,
    directories and files per directory: the [break] leaves the inner
    loop only, so every directory is looked at. *)
Definition find_file (file : option string)
           (walk : list (string * list string * list string))
  : option string :=
  match file with
  | Some f => Some f
  | None =>
      fold_left (fun file entry =>
                   match first_ics (snd entry) with
                   | Some f => Some f
                   | None => file
                   end) walk None
  end.

(** ** Unfolding continuation lines *)

Definition LF : ascii := ascii_of_nat 10.
Definition TAB : ascii := ascii_of_nat 9.

(** [data.replace(os.linesep + '\t', "")] where [os.linesep] is a line
    feed: the occurrences are taken out from left to right. *)
Fixpoint unfold_lines (data : string) : string :=
  match data with
  | EmptyString => EmptyString
  | String c t =>
      match t with
      | String c' t' =>
          if Ascii.eqb c LF && Ascii.eqb c' TAB then unfold_lines t'
          else String c (unfold_lines t)
      | EmptyString => String c EmptyString
      end
  end.

(** [folded s t]: [t] is [s] with line feed and tab put in at some
    places, the way a long content line is folded. *)
Inductive folded : string -> string -> Prop :=
| folded_nil : folded EmptyString EmptyString
| folded_char (c : ascii) (s t : string) :
    folded s t -> folded (String c s) (String c t)
| folded_break (s t : string) :
    folded s t -> folded s (String LF (String TAB t)).

Fixpoint has_tab (s : string) : bool :=
  match s with
  | EmptyString => false
  | String c t => Ascii.eqb c TAB || has_tab t
  end.

(** ** Printing the report *)

(** [sorted(l)] for a total order [leb]: a stable insertion sort. *)
Fixpoint insert_sorted {A : Type} (leb : A -> A -> bool) (x : A)
         (l : list A) : list A :=
  match l with
  | [] => [x]
  | y :: t => if leb x y then x :: l else y :: insert_sorted leb x t
  end.

Definition sorted {A : Type} (leb : A -> A -> bool) (l : list A) : list A :=
  fold_right (insert_sorted leb) [] l.

(** [a.dtstart <= b.dtstart], the order of [operator.attrgetter('dtstart')]. *)
Definition dtstart_leb (a b : Event) : bool :=
  timestamp (ev_dtstart a) <=? timestamp (ev_dtstart b).

(** A printed line, its fields before formatting. *)
Inductive line :=
| header_line (dstart dend : option date) (cw : option (Z * Z))
              (total : timedelta)
| category_line (key : string) (total : timedelta)
| event_line (e : Event).

Inductive printed :=
| NameError
| stdout (lines : list line).

(** The lines of one key; a key of the dictionary always has a bucket. *)
Definition bucket_lines (d : dict) (key : string) : list line :=
  match dict_get key d with
  | Some (tot, evs) =>
      category_line key tot :: map event_line (sorted dtstart_leb evs)
  | None => []
  end.

(** Lines 157 to 167.  Reading [cw] while it is unbound raises NameError
    before anything is printed. *)
Definition print_report (dstart dend : option date)
           (cw : binding (option (Z * Z))) (g : globals) : printed :=
  match cw with
  | Unbound => NameError
  | Bound label =>
      stdout (header_line dstart dend label (total_duration g)
              :: flat_map (bucket_lines (event_dict g))
                          (sorted String.leb (keys (event_dict g))))
  end.




(** ** Orders and classes used in the statements *)

(** [all(c in class for c in p)] for the class of the default pattern. *)
Fixpoint all_class (p : string) : bool :=
  match p with
  | EmptyString => true
  | String c t => in_cregex_class c && all_class t
  end.

(** [a <= b] and [a < b] on aware datetimes compare instants. *)
Definition dt_le (a b : datetime) : Prop := timestamp a <= timestamp b.
Definition dt_lt (a b : datetime) : Prop := timestamp a < timestamp b.

(** ** Arithmetic of the Gregorian calendar *)

(** Days of an era of 400 years, less the leap days that fall before
    them: 365 per year of the era. *)
Definition year_days (doe : Z) : Z :=
  doe - doe / 1460 + doe / 36524 - doe / 146096.

(** First day of the [k]-th year of an era, years running from March. *)
Definition year_start (k : Z) : Z := 365 * k + k / 4 - k / 100.

Definition year_start_ok (k : Z) : bool :=
  (k <? 0) || (k >=? 400)
  || ((365 * k <=? year_days (year_start k))
      && (year_days (year_start (k + 1) - 1) <=? 365 * k + 364)).

(** [p] on every number from [lo] to [lo + 2 ^ n - 1]. *)
Fixpoint check_from (p : Z -> bool) (n : nat) (lo : Z) : bool :=
  match n with
  | O => p lo
  | S n' => check_from p n' lo && check_from p n' (lo + 2 ^ Z.of_nat n')
  end.

(** ** Sample data

    Days are counted from 1970-01-01: 2024-01-01 is day 19723, a Monday. *)

Definition at_utc (day hh mm : Z) : datetime :=
  {| wall := day * 86400 + hh * 3600 + mm * 60; utcoffset := UTC |}.

(** dateutil on the three rule texts of the samples, for a DTSTART that
    is timezone aware: [FREQ=WEEKLY;COUNT=4] gives DTSTART and the three
    instants one, two and three weeks later, on DTSTART's tzinfo;
    [FREQ=WEEKLY;UNTIL=20240122T090000] has an UNTIL that is not in UTC,
    which [rrulestr] rejects with ValueError; [COUNT=4] has no FREQ, and
    [rrulestr] ends with TypeError when it builds the rule.  No other
    text is used; the last branch is what dateutil does with a text that
    has no [NAME=value] part. *)
Definition sample_rrulestr (text : string) (dtstart : datetime)
  : rrule_result :=
  if String.eqb text "FREQ=WEEKLY;COUNT=4"
  then Generated (map (fun k => {| wall := wall dtstart + k * 604800;
                                   utcoffset := utcoffset dtstart |})
                      [0; 1; 2; 3])
  else if String.eqb text "COUNT=4" then Raises TypeError
  else Raises ValueError.

(** A weekly one-hour meeting, four Mondays from 2024-01-01T09:00Z. *)
Definition weekly : component :=
  {| UID := "series-1"; SUMMARY := Some "[DEV] standup";
     DTSTART := at_utc 19723 9 0; DTEND := at_utc 19723 10 0;
     RRULE := Some "FREQ=WEEKLY;COUNT=4"; EXDATE := [];
     RECURRENCE_ID := None |}.

(** The same series with the third Monday excluded. *)
Definition weekly_ex : component :=
  {| UID := "series-1"; SUMMARY := Some "[DEV] standup";
     DTSTART := at_utc 19723 9 0; DTEND := at_utc 19723 10 0;
     RRULE := Some "FREQ=WEEKLY;COUNT=4"; EXDATE := [at_utc 19737 9 0];
     RECURRENCE_ID := None |}.

(** An override of the second Monday, moved to 14:00, whose RECURRENCE-ID
    is the generated instant itself. *)
Definition moved_exact : component :=
  {| UID := "series-1"; SUMMARY := None;
     DTSTART := at_utc 19730 14 0; DTEND := at_utc 19730 15 0;
     RRULE := None; EXDATE := [];
     RECURRENCE_ID := Some (at_utc 19730 9 0) |}.

(** An override of the second Monday whose RECURRENCE-ID is five minutes
    off the generated instant. *)
Definition moved_off : component :=
  {| UID := "series-1"; SUMMARY := Some "[DEV] retro";
     DTSTART := at_utc 19730 16 0; DTEND := at_utc 19730 18 0;
     RRULE := None; EXDATE := [];
     RECURRENCE_ID := Some (at_utc 19730 9 5) |}.

(** A series whose rule text dateutil rejects: its UNTIL is not in UTC,
    beside a DTSTART that is timezone aware. *)
Definition broken : component :=
  {| UID := "series-2"; SUMMARY := Some "[OPS] sync";
     DTSTART := at_utc 19723 11 0; DTEND := at_utc 19723 12 0;
     RRULE := Some "FREQ=WEEKLY;UNTIL=20240122T090000"; EXDATE := [];
     RECURRENCE_ID := None |}.

(** A series whose rule has no FREQ. *)
Definition no_freq : component :=
  {| UID := "series-3"; SUMMARY := Some "[OPS] backup";
     DTSTART := at_utc 19723 13 0; DTEND := at_utc 19723 14 0;
     RRULE := Some "COUNT=4"; EXDATE := [];
     RECURRENCE_ID := None |}.

(** A VEVENT whose rule icalendar parsed to nothing, as it does with the
    line [RRULE:garbage]. *)
Definition empty_rule : component :=
  {| UID := "series-4"; SUMMARY := Some "[OPS] patch";
     DTSTART := at_utc 19752 13 0; DTEND := at_utc 19752 14 0;
     RRULE := Some ""; EXDATE := [];
     RECURRENCE_ID := None |}.

(** A single event of ninety minutes on 2024-01-31. *)
Definition single : component :=
  {| UID := "single-1"; SUMMARY := Some "[DEV] review";
     DTSTART := at_utc 19753 9 0; DTEND := at_utc 19753 10 30;
     RRULE := None; EXDATE := [];
     RECURRENCE_ID := None |}.

(** The series of [weekly_ex], its exclusion date tagged with an offset of
    one hour on the same wall clock. *)
Definition weekly_tagged : component :=
  {| UID := "series-1"; SUMMARY := Some "[DEV] standup";
     DTSTART := at_utc 19723 9 0; DTEND := at_utc 19723 10 0;
     RRULE := Some "FREQ=WEEKLY;COUNT=4";
     EXDATE := [{| wall := 19737 * 86400 + 9 * 3600; utcoffset := 3600 |}];
     RECURRENCE_ID := None |}.

(** The series of [weekly], with an exclusion date that denotes its
    third Monday, 2024-01-15T09:00Z, as 10:00 at an offset of one hour. *)
Definition weekly_shifted : component :=
  {| UID := "series-1"; SUMMARY := Some "[DEV] standup";
     DTSTART := at_utc 19723 9 0; DTEND := at_utc 19723 10 0;
     RRULE := Some "FREQ=WEEKLY;COUNT=4";
     EXDATE := [{| wall := 19737 * 86400 + 10 * 3600; utcoffset := 3600 |}];
     RECURRENCE_ID := None |}.

(** The four Mondays [FREQ=WEEKLY;COUNT=4] generates from 2024-01-01. *)
Definition four_mondays : list datetime :=
  [at_utc 19723 9 0; at_utc 19730 9 0; at_utc 19737 9 0; at_utc 19744 9 0].

(** An override whose UID no series of the samples has. *)
Definition stray : component :=
  {| UID := "series-9"; SUMMARY := Some "[DEV] lost";
     DTSTART := at_utc 19730 14 0; DTEND := at_utc 19730 15 0;
     RRULE := None; EXDATE := [];
     RECURRENCE_ID := Some (at_utc 19730 9 0) |}.

(** A window from 2023-12-09 to 2024-03-18. *)
Definition sample_dstart : date := 19700.
Definition sample_dend : date := 19800.

(** The arguments [--week 2024-01-31], and the Monday and the Sunday of
    that week, 2024-W05. *)
Definition sample_week : arguments :=
  {| args_week := Some 19753; args_dstart := None; args_dend := None |}.
Definition week5_monday : date := 19751.
Definition week5_sunday : date := 19757.

Section Script.

(** [args.dstart], [args.dend]; [m[0]] of [category_pattern.match], [None]
    when there is no match; [list(rrulestr(text, dtstart = dtstart))]. *)
Variables dstart dend : date.
Variable category_match : string -> option string.
Variable rrulestr : string -> datetime -> rrule_result.

Set Default Proof Using "Type".

(** ** [add_event] *)

Definition in_window (dtstart : datetime) : bool :=
  (dstart <=? date_of dtstart) && (dend >=? date_of dtstart).

(** [category] as it stands before the case-insensitive loop. *)
Definition classify (summary : string) : string :=
  match category_match summary with
  | Some m0 => alnum_join m0
  | None => CATEGORY_IGNORED
  end.

Definition add_event (g : globals) (dtstart : datetime)
           (duration : timedelta) (summary : string) : globals :=
  let summary := slice200 summary in
  if in_window dtstart then
    let total :=
      match category_match summary with
      | Some _ => total_duration g + duration
      | None => total_duration g
      end in
    let category := fold_case (keys (event_dict g)) (classify summary) in
    let ev := mk_Event dtstart duration summary
                       (iso_year dtstart) (iso_week dtstart) category in
    match dict_get category (event_dict g) with
    | Some (tot, evs) =>
        {| event_dict :=
             dict_set category (tot + duration, (evs ++ [ev])%list)
                      (event_dict g);
           total_duration := total |}
    | None =>
        {| event_dict := dict_set category (duration, [ev]) (event_dict g);
           total_duration := total |}
    end
  else g.

(** A run of calls of [add_event]. *)
Definition add_events (g : globals) (l : list occurrence) : globals :=
  fold_left (fun g o => add_event g (fst (fst o)) (snd (fst o)) (snd o)) l g.

(** ** The main loop *)

Definition state0 (pool : list component) : state :=
  {| glob := globals0; recurrence_list := pool; log := [];
     calls := []; consumed := []; raised := None |}.

(** [add_event(dtstart, duration, summary)], the call recorded with the
    pool record [origin] it comes from. *)
Definition call_add_event (st : state) (origin : option component)
           (dtstart : datetime) (duration : timedelta) (summary : string)
  : state :=
  {| glob := add_event (glob st) dtstart duration summary;
     recurrence_list := recurrence_list st;
     log := log st;
     calls := (calls st ++ [((dtstart, duration, summary), origin)])%list;
     consumed := consumed st;
     raised := raised st |}.

(** [logging.info(msg + ': %s', DEBUG_INFO)] *)
Definition logging_info (msg : string) (c : component) (st : state) : state :=
  {| glob := glob st;
     recurrence_list := recurrence_list st;
     log := (log st ++ [mk_log msg (UID c) (str_summary (SUMMARY c))
                               (DTSTART c) (DTEND c)])%list;
     calls := calls st;
     consumed := consumed st;
     raised := raised st |}.

(** [recurrence_list.remove(e)] *)
Definition pool_remove (e : component) (st : state) : state :=
  {| glob := glob st;
     recurrence_list := list_remove e (recurrence_list st);
     log := log st;
     calls := calls st;
     consumed := (consumed st ++ [e])%list;
     raised := raised st |}.

Definition raise (e : exn) (st : state) : state :=
  {| glob := glob st;
     recurrence_list := recurrence_list st;
     log := log st;
     calls := calls st;
     consumed := consumed st;
     raised := Some e |}.

(** The loop [for e in recurrence_list.copy()] for the instant [i] of the
    series [c]; the boolean is [FOUND] when the loop ends.  Only VEVENTs
    with a RECURRENCE-ID are in the pool, so the [None] branch is never
    taken on a pool. *)
Fixpoint scan (c : component) (i : datetime) (copy : list component)
         (st : state) : bool * state :=
  match copy with
  | [] => (false, st)
  | e :: rest =>
      if String.eqb (UID e) (UID c) then
        match RECURRENCE_ID e with
        | None => scan c i rest st
        | Some rid =>
            let dte := astimezone rid UTC in
            let recur := astimezone i UTC in
            let FOUND := dt_eqb recur dte in
            let '(FOUND, st) :=
              if date_of recur =? date_of dte
              then (true, logging_info "relaxed matching" c st)
              else (FOUND, st) in
            if FOUND then
              let duration := dt_sub (DTEND e) (DTSTART e) in
              let st :=
                call_add_event st (Some e) (DTSTART e) duration
                               (summary_or (SUMMARY e)
                                           (str_summary (SUMMARY c))) in
              (true, pool_remove e st)
            else scan c i rest st
        end
      else scan c i rest st
  end.

(** The body of [for i in list(rrset)]. *)
Definition process_instant (c : component) (st : state) (i : datetime)
  : state :=
  let '(FOUND, st) := scan c i (recurrence_list st) st in
  if FOUND then st
  else call_add_event st None i (dt_sub (DTEND c) (DTSTART c))
                      (str_summary (SUMMARY c)).

(** The exclusion dates as they are given to [rrset.exdate]. *)
Definition exdates_of (c : component) : list datetime :=
  map (fun exdate => replace_tzinfo exdate (utcoffset (DTSTART c)))
      (EXDATE c).

(** [list(rrset)] for the series [c] whose rule generates [generated]. *)
Definition expand (c : component) (generated : list datetime)
  : list datetime :=
  rruleset_list generated (exdates_of c).

(** The body of the second [for component in calendar.walk("VEVENT")].
    Nothing runs once an exception was raised, and nothing catches what
    [rrulestr] raises.  The [logging.debug] of a date-only VEVENT is
    below the INFO level of the log file. *)
Definition process_vevent (st : state) (v : vevent) : state :=
  match raised st with
  | Some _ => st
  | None =>
      match v with
      | DateEvent _ _ _ _ => st
      | TimedEvent c =>
          match RECURRENCE_ID c with
          | Some _ => st
          | None =>
              match rrule_text c with
              | None =>
                  call_add_event st None (DTSTART c)
                                 (dt_sub (DTEND c) (DTSTART c))
                                 (str_summary (SUMMARY c))
              | Some text =>
                  match rrulestr text (DTSTART c) with
                  | Raises e => raise e st
                  | Generated generated =>
                      fold_left (process_instant c) (expand c generated) st
                  end
              end
          end
      end
  end.

(** The first loop: the VEVENTs with a RECURRENCE-ID, in feed order. *)
Fixpoint collect (feed : list vevent) : list component :=
  match feed with
  | [] => []
  | TimedEvent c :: t =>
      match RECURRENCE_ID c with
      | Some _ => c :: collect t
      | None => collect t
      end
  | DateEvent _ _ _ _ :: t => collect t
  end.

Definition run (feed : list vevent) : state :=
  fold_left process_vevent feed (state0 (collect feed)).

(** How the script ends: with the exception that left the loop, before
    anything is printed, or with what lines 157 to 167 do when the loop
    has run to its end, for the window and the value of [cw] that lines
    42 to 50 left. *)
Inductive ending :=
| loop_raised (e : exn)
| loop_done (p : printed).

Definition report (ds de : option date) (cw : binding (option (Z * Z)))
           (st : state) : ending :=
  match raised st with
  | Some e => loop_raised e
  | None => loop_done (print_report ds de cw (glob st))
  end.

(** ** Notions used in the statements *)

(** [e] belongs to the series [c]. *)
Definition same_series (c e : component) : bool := String.eqb (UID e) (UID c).

(** Exact match: the RECURRENCE-ID of [e] and [i] are the same instant. *)
Definition exact_match (i : datetime) (e : component) : bool :=
  match RECURRENCE_ID e with
  | Some rid => dt_eqb (astimezone i UTC) (astimezone rid UTC)
  | None => false
  end.

(** Date-level match: the RECURRENCE-ID of [e] and [i] fall on the same
    UTC date. *)
Definition date_match (i : datetime) (e : component) : bool :=
  match RECURRENCE_ID e with
  | Some rid => date_of (astimezone i UTC) =? date_of (astimezone rid UTC)
  | None => false
  end.

(** A relaxed match is a date-level match that is not exact. *)
Definition relaxed_only (i : datetime) (e : component) : bool :=
  date_match i e && negb (exact_match i e).

(** The records the matching loop stops at. *)
Definition candidate (c : component) (i : datetime) (e : component) : bool :=
  same_series c e && date_match i e.

(** The occurrence built from the pool record [e] of the series [c]. *)
Definition override_occurrence (c e : component) : occurrence :=
  (DTSTART e, dt_sub (DTEND e) (DTSTART e),
   summary_or (SUMMARY e) (str_summary (SUMMARY c))).

(** The occurrence built from the generated instant [i] of [c]. *)
Definition plain_occurrence (c : component) (i : datetime) : occurrence :=
  (i, dt_sub (DTEND c) (DTSTART c), str_summary (SUMMARY c)).

(** The resolved occurrence of the instant [i] against the pool. *)
Definition resolve (c : component) (i : datetime) (pool : list component)
  : occurrence * option component :=
  match find (candidate c i) pool with
  | Some e => (override_occurrence c e, Some e)
  | None => (plain_occurrence c i, None)
  end.

(** The pool records a list of calls was built from. *)
Fixpoint origins (l : list (occurrence * option component))
  : list component :=
  match l with
  | [] => []
  | (_, Some e) :: t => e :: origins t
  | (_, None) :: t => origins t
  end.

(** Keys of the dictionary are the sentinel or purely alphanumeric. *)
Definition key_ok (k : string) : Prop :=
  k = CATEGORY_IGNORED \/ all_alnum k = true.

(** Every bucket total is the sum of the durations of its events. *)
Definition bucket_ok (kv : string * bucket) : Prop :=
  fst (snd kv) = sum_durations (snd (snd kv)).

(** A series on whose rule text [rrulestr] raises. *)
Definition malformed (v : vevent) : bool :=
  match v with
  | DateEvent _ _ _ _ => false
  | TimedEvent c =>
      match RECURRENCE_ID c, rrule_text c with
      | None, Some text =>
          match rrulestr text (DTSTART c) with
          | Raises _ => true
          | Generated _ => false
          end
      | _, _ => false
      end
  end.

(** What a bucket keyed [k] adds to the grand total when its total grows
    by [x]. *)
Definition counted (k : string) (x : timedelta) : timedelta :=
  if String.eqb k CATEGORY_IGNORED then 0 else x.

(** What holds of an event stored in the bucket keyed [k]. *)
Definition event_ok (k : string) (e : Event) : Prop :=
  ev_category e = k
  /\ (String.length (ev_summary e) <= 200)%nat
  /\ in_window (ev_dtstart e) = true
  /\ ev_year e = iso_year (ev_dtstart e)
  /\ ev_week e = iso_week (ev_dtstart e).

Definition stored_ok (d : dict) : Prop :=
  Forall (fun kv => Forall (event_ok (fst kv)) (snd (snd kv))) d.

(** A call that passes the window test; one whose title the pattern
    matches. *)
Definition kept (o : occurrence) : bool := in_window (fst (fst o)).

Definition has_category (o : occurrence) : bool :=
  match category_match (slice200 (snd o)) with
  | Some _ => true
  | None => false
  end.

(** Sum of the durations of a list of calls. *)
Definition sum_of (l : list occurrence) : timedelta :=
  fold_right (fun o acc => snd (fst o) + acc) 0 l.

(** The total of the bucket keyed [k], 0 when there is none. *)
Definition bucket_total (k : string) (d : dict) : timedelta :=
  match dict_get k d with
  | Some (tot, _) => tot
  | None => 0
  end.

(** A VEVENT the main loop expands: timed, no RECURRENCE-ID, an RRULE. *)
Definition is_series (v : vevent) : bool :=
  match v with
  | DateEvent _ _ _ _ => false
  | TimedEvent c =>
      is_None (RECURRENCE_ID c) && negb (is_None (rrule_text c))
  end.

Definition uid_of (v : vevent) : string :=
  match v with
  | DateEvent uid _ _ _ => uid
  | TimedEvent c => UID c
  end.

(** The number of occurrences a VEVENT of the feed stands for: none for
    a date-only VEVENT or an override, one for a single event, the
    number of instants of its expansion for a series. *)
Definition instants_of (v : vevent) : nat :=
  match v with
  | DateEvent _ _ _ _ => 0%nat
  | TimedEvent c =>
      match RECURRENCE_ID c, rrule_text c with
      | Some _, _ => 0%nat
      | None, None => 1%nat
      | None, Some text =>
          match rrulestr text (DTSTART c) with
          | Generated generated => List.length (expand c generated)
          | Raises _ => 0%nat
          end
      end
  end.

(** What every reachable state of the aggregator satisfies. *)
Definition agg_inv (g : globals) : Prop :=
  Forall key_ok (keys (event_dict g))
  /\ total_duration g = counted_total (event_dict g)
  /\ Forall bucket_ok (event_dict g)
  /\ NoDup (map lower (keys (event_dict g))).

(** The event [add_event] stores for a call that passes the window. *)
Definition stored_event (g : globals) (dtstart : datetime)
           (duration : timedelta) (summary : string) : Event :=
  mk_Event dtstart duration (slice200 summary)
           (iso_year dtstart) (iso_week dtstart)
           (fold_case (keys (event_dict g)) (classify (slice200 summary))).

(** The state after the matching loop has stopped at the pool record [e]:
    one log record, one call of [add_event], one removal. *)
Definition consume (c e : component) (st : state) : state :=
  pool_remove e
    (call_add_event (logging_info "relaxed matching" c st) (Some e)
       (DTSTART e) (dt_sub (DTEND e) (DTSTART e))
       (summary_or (SUMMARY e) (str_summary (SUMMARY c)))).

(** The pool after the instant [i] of the series [c] was resolved. *)
Definition pool_after (c : component) (i : datetime) (pool : list component)
  : list component :=
  match find (candidate c i) pool with
  | Some e => list_remove e pool
  | None => pool
  end.

(** The resolved occurrences of a run of instants, the pool threaded
    through. *)
Fixpoint resolve_all (c : component) (pool : list component)
         (instants : list datetime) : list (occurrence * option component) :=
  match instants with
  | [] => []
  | i :: t => resolve c i pool :: resolve_all c (pool_after c i pool) t
  end.

(** What the main loop maintains, [pool0] being the pool it started
    with. *)
Definition run_inv (pool0 : list component) (st : state) : Prop :=
  Permutation (consumed st ++ recurrence_list st) pool0
  /\ origins (calls st) = consumed st
  /\ glob st = add_events globals0 (map fst (calls st)).

Definition datetime_eq_dec (a b : datetime) : {a = b} + {a <> b}.
Proof. decide equality; apply Z.eq_dec. Defined.

Definition component_eq_dec (a b : component) : {a = b} + {a <> b}.
Proof.
  decide equality;
    try apply string_dec;
    try apply datetime_eq_dec;
    try (apply list_eq_dec; apply datetime_eq_dec);
    decide equality;
    try apply string_dec; try apply datetime_eq_dec.
Defined.

(** ** Strings: case folding and alphanumeric keys *)

Lemma isalnum_lower_char (c : ascii) : isalnum (lower_char c) = isalnum c.
Proof.
  destruct c as [[] [] [] [] [] [] [] []]; reflexivity.
Qed.

Lemma all_alnum_lower (s : string) : all_alnum (lower s) = all_alnum s.
Proof.
  induction s as [|c t IH]; simpl; [reflexivity|].
  now rewrite isalnum_lower_char, IH.
Qed.

Lemma all_alnum_join (s : string) : all_alnum (alnum_join s) = true.
Proof.
  induction s as [|c t IH]; simpl; [reflexivity|].
  destruct (isalnum c) eqn:E; simpl; [now rewrite E|assumption].
Qed.

Lemma ignored_not_alnum : all_alnum CATEGORY_IGNORED = false.
Proof. reflexivity. Qed.

Lemma lower_empty (s : string) : lower s = "" -> s = "".
Proof. destruct s; simpl; [reflexivity|discriminate]. Qed.

(** A key equal up to case to an alphanumeric string is not the sentinel,
    and an admissible key equal up to case to the sentinel is the sentinel. *)
Lemma alnum_fold_not_ignored (k c : string) :
  lower k = lower c -> all_alnum c = true -> k <> CATEGORY_IGNORED.
Proof.
  intros Hl Hc ->.
  assert (H : all_alnum (lower CATEGORY_IGNORED) = true)
    by (rewrite Hl, all_alnum_lower; exact Hc).
  discriminate H.
Qed.

Lemma ignored_fold_ignored (k : string) :
  key_ok k -> lower k = lower CATEGORY_IGNORED -> k = CATEGORY_IGNORED.
Proof.
  intros [->|Hk] Hl; [reflexivity|].
  rewrite <- all_alnum_lower, Hl in Hk. discriminate Hk.
Qed.

(** ** The case-insensitive loop *)

Lemma fold_case_lower (ks : list string) (c : string) :
  lower (fold_case ks c) = lower c.
Proof.
  induction ks as [|e t IH]; simpl; [reflexivity|].
  destruct (String.eqb (lower e) (lower c)) eqn:E; [|exact IH].
  now apply String.eqb_eq.
Qed.

Lemma fold_case_cases (ks : list string) (c : string) :
  In (fold_case ks c) ks
  \/ (fold_case ks c = c /\ Forall (fun e => lower e <> lower c) ks).
Proof.
  induction ks as [|e t IH]; simpl.
  - right. split; [reflexivity|constructor].
  - destruct (String.eqb (lower e) (lower c)) eqn:E.
    + left. now left.
    + apply String.eqb_neq in E.
      destruct IH as [IH|[IH1 IH2]]; [left; now right|].
      right. split; [assumption|now constructor].
Qed.

Lemma fold_case_key_ok (ks : list string) (c : string) :
  Forall key_ok ks -> key_ok c -> key_ok (fold_case ks c).
Proof.
  intros Hks Hc.
  destruct (fold_case_cases ks c) as [H|[H _]].
  - rewrite Forall_forall in Hks. now apply Hks.
  - now rewrite H.
Qed.

(** A new casing of a key that is present resolves to the key present. *)
Lemma fold_case_absent (ks : list string) (c : string) :
  ~ In (fold_case ks c) ks -> Forall (fun e => lower e <> lower c) ks.
Proof.
  intros H. destruct (fold_case_cases ks c) as [H'|[_ H']];
    [contradiction|assumption].
Qed.

(** ** Dictionary lemmas *)

Lemma dict_get_in (k : string) (d : dict) (v : bucket) :
  dict_get k d = Some v -> In k (keys d).
Proof.
  induction d as [|[k' v'] t IH]; simpl; [discriminate|].
  destruct (String.eqb k' k) eqn:E; intros H.
  - left. now apply String.eqb_eq.
  - right. now apply IH.
Qed.

Lemma dict_get_none (k : string) (d : dict) :
  dict_get k d = None -> ~ In k (keys d).
Proof.
  induction d as [|[k' v'] t IH]; simpl; [intros _ []|].
  destruct (String.eqb k' k) eqn:E; [discriminate|].
  apply String.eqb_neq in E. intros H [H'|H']; [contradiction|].
  now apply IH.
Qed.

Lemma keys_set_present (k : string) (v v0 : bucket) (d : dict) :
  dict_get k d = Some v0 -> keys (dict_set k v d) = keys d.
Proof.
  induction d as [|[k' v'] t IH]; simpl; [discriminate|].
  destruct (String.eqb k' k) eqn:E; simpl; [reflexivity|].
  intros H. f_equal. now apply IH.
Qed.

Lemma keys_set_absent (k : string) (v : bucket) (d : dict) :
  dict_get k d = None -> keys (dict_set k v d) = (keys d ++ [k])%list.
Proof.
  induction d as [|[k' v'] t IH]; simpl; [reflexivity|].
  destruct (String.eqb k' k) eqn:E; simpl; [discriminate|].
  intros H. f_equal. now apply IH.
Qed.

Lemma dict_get_set_same (k : string) (v : bucket) (d : dict) :
  dict_get k (dict_set k v d) = Some v.
Proof.
  induction d as [|[k' v'] t IH]; simpl.
  - now rewrite String.eqb_refl.
  - destruct (String.eqb k' k) eqn:E; simpl; rewrite E; [reflexivity|exact IH].
Qed.

Lemma dict_get_set_other (k k0 : string) (v : bucket) (d : dict) :
  k0 <> k -> dict_get k0 (dict_set k v d) = dict_get k0 d.
Proof.
  intros Hne. induction d as [|[k' v'] t IH]; simpl.
  - destruct (String.eqb k k0) eqn:E; [|reflexivity].
    apply String.eqb_eq in E. congruence.
  - destruct (String.eqb k' k) eqn:E; simpl.
    + apply String.eqb_eq in E. subst k'.
      destruct (String.eqb k k0) eqn:E'; [|reflexivity].
      apply String.eqb_eq in E'. congruence.
    + now rewrite IH.
Qed.

Lemma counted_total_set_present (k : string) (tot tot' : timedelta)
      (evs evs' : list Event) (d : dict) :
  dict_get k d = Some (tot, evs) ->
  counted_total (dict_set k (tot', evs') d)
  = counted_total d + counted k (tot' - tot).
Proof.
  unfold counted.
  induction d as [|[k' [t0 e0]] t IH]; simpl; [discriminate|].
  destruct (String.eqb k' k) eqn:E; simpl.
  - intros H. injection H as -> ->. apply String.eqb_eq in E. subst k'.
    destruct (String.eqb k CATEGORY_IGNORED); lia.
  - intros H. rewrite (IH H). lia.
Qed.

Lemma counted_total_set_absent (k : string) (tot' : timedelta)
      (evs' : list Event) (d : dict) :
  dict_get k d = None ->
  counted_total (dict_set k (tot', evs') d) = counted_total d + counted k tot'.
Proof.
  unfold counted.
  induction d as [|[k' [t0 e0]] t IH]; simpl.
  - intros _. destruct (String.eqb k CATEGORY_IGNORED); lia.
  - destruct (String.eqb k' k) eqn:E; simpl; [discriminate|].
    intros H. rewrite (IH H). lia.
Qed.

Lemma count_events_set_present (k : string) (tot tot' : timedelta)
      (evs : list Event) (ev : Event) (d : dict) :
  dict_get k d = Some (tot, evs) ->
  count_events (dict_set k (tot', (evs ++ [ev])%list) d) = S (count_events d).
Proof.
  induction d as [|[k' [t0 e0]] t IH]; simpl; [discriminate|].
  destruct (String.eqb k' k) eqn:E; simpl.
  - intros H. injection H as -> ->. rewrite length_app. simpl. lia.
  - intros H. rewrite (IH H). lia.
Qed.

Lemma count_events_set_absent (k : string) (tot' : timedelta) (ev : Event)
      (d : dict) :
  dict_get k d = None ->
  count_events (dict_set k (tot', [ev]) d) = S (count_events d).
Proof.
  induction d as [|[k' [t0 e0]] t IH]; simpl; [reflexivity|].
  destruct (String.eqb k' k) eqn:E; simpl; [discriminate|].
  intros H. rewrite (IH H). lia.
Qed.

Lemma bucket_ok_set (k : string) (v : bucket) (d : dict) :
  Forall bucket_ok d -> bucket_ok (k, v) ->
  Forall bucket_ok (dict_set k v d).
Proof.
  intros Hd Hv. induction d as [|[k' v'] t IH]; simpl.
  - now constructor.
  - inversion Hd; subst.
    destruct (String.eqb k' k); constructor; auto.
Qed.

Lemma sum_durations_app (evs : list Event) (ev : Event) :
  sum_durations (evs ++ [ev]) = sum_durations evs + ev_duration ev.
Proof.
  unfold sum_durations. induction evs as [|e t IH]; simpl; lia.
Qed.

(** ** [add_event] *)

Lemma in_window_iff (dt : datetime) :
  in_window dt = true <-> dstart <= date_of dt <= dend.
Proof.
  unfold in_window. rewrite andb_true_iff, Z.leb_le, Z.geb_le. tauto.
Qed.

Lemma add_event_out (g : globals) dt dur s :
  in_window dt = false -> add_event g dt dur s = g.
Proof. unfold add_event. now intros ->. Qed.

(** Inside the window the bucket of the folded category receives the
    event, and the grand total grows when the pattern matched. *)
Lemma add_event_in (g : globals) dt dur s :
  in_window dt = true ->
  let cat := fold_case (keys (event_dict g)) (classify (slice200 s)) in
  add_event g dt dur s =
  {| event_dict :=
       dict_set cat
         match dict_get cat (event_dict g) with
         | Some (tot, evs) =>
             (tot + dur, (evs ++ [stored_event g dt dur s])%list)
         | None => (dur, [stored_event g dt dur s])
         end (event_dict g);
     total_duration :=
       match category_match (slice200 s) with
       | Some _ => total_duration g + dur
       | None => total_duration g
       end |}.
Proof.
  intros Hw cat. unfold add_event. rewrite Hw. fold cat.
  unfold stored_event. fold cat.
  destruct (dict_get cat (event_dict g)) as [[tot evs]|]; reflexivity.
Qed.

Lemma classify_key_ok (s : string) : key_ok (classify s).
Proof.
  unfold classify, key_ok.
  destruct (category_match s); [right; apply all_alnum_join|now left].
Qed.

(** The folded category is the sentinel exactly when the pattern did not
    match. *)
Lemma counted_folded (ks : list string) (s : string) (x : timedelta) :
  Forall key_ok ks ->
  counted (fold_case ks (classify s)) x
  = match category_match s with Some _ => x | None => 0 end.
Proof.
  intros Hks. unfold counted.
  pose proof (fold_case_lower ks (classify s)) as Hl.
  pose proof (fold_case_key_ok ks (classify s) Hks (classify_key_ok s)) as Hk.
  unfold classify in *. destruct (category_match s) as [m|].
  - destruct (String.eqb _ CATEGORY_IGNORED) eqn:E; [|reflexivity].
    apply String.eqb_eq in E.
    exfalso. revert E. eapply alnum_fold_not_ignored; [exact Hl|].
    apply all_alnum_join.
  - rewrite (ignored_fold_ignored _ Hk Hl). reflexivity.
Qed.

Lemma in_keys_get (k : string) (d : dict) :
  In k (keys d) -> exists v, dict_get k d = Some v.
Proof.
  induction d as [|[k' v'] t IH]; simpl; [intros []|].
  intros [->|H].
  - rewrite String.eqb_refl. now exists v'.
  - destruct (String.eqb k' k); [now exists v'|now apply IH].
Qed.

Lemma dict_get_bucket_ok (k : string) (d : dict) (v : bucket) :
  Forall bucket_ok d -> dict_get k d = Some v -> bucket_ok (k, v).
Proof.
  induction d as [|[k' v'] t IH]; simpl; [discriminate|].
  intros Hd. inversion Hd; subst.
  destruct (String.eqb k' k); [|now apply IH].
  intros H. injection H as <-. assumption.
Qed.

Lemma add_event_inv (g : globals) dt dur s :
  agg_inv g -> agg_inv (add_event g dt dur s).
Proof.
  intros (Hk & Ht & Hb & Hn).
  destruct (in_window dt) eqn:Hw;
    [|rewrite add_event_out by assumption; repeat split; assumption].
  rewrite add_event_in by assumption.
  set (cat := fold_case (keys (event_dict g)) (classify (slice200 s))).
  pose proof (counted_folded (keys (event_dict g)) (slice200 s) dur Hk) as Hc.
  fold cat in Hc.
  pose proof (fold_case_key_ok _ _ Hk (classify_key_ok (slice200 s))) as Hcat.
  fold cat in Hcat.
  unfold agg_inv; simpl.
  destruct (dict_get cat (event_dict g)) as [[tot evs]|] eqn:Hg.
  - rewrite (keys_set_present _ _ _ _ Hg).
    rewrite (counted_total_set_present _ _ _ _ _ _ Hg).
    replace (tot + dur - tot) with dur by lia. rewrite Hc.
    repeat split; try assumption.
    + destruct (category_match (slice200 s)); lia.
    + apply bucket_ok_set; [assumption|].
      pose proof (dict_get_bucket_ok _ _ _ Hb Hg) as Hv.
      unfold bucket_ok in *; simpl in *.
      rewrite sum_durations_app. simpl. lia.
  - rewrite (keys_set_absent _ _ _ Hg).
    rewrite (counted_total_set_absent _ _ _ _ Hg). rewrite Hc.
    repeat split.
    + apply Forall_app. split; [assumption|now constructor].
    + destruct (category_match (slice200 s)); lia.
    + apply bucket_ok_set; [assumption|].
      unfold bucket_ok, sum_durations; simpl. lia.
    + rewrite map_app. simpl. apply NoDup_app;
        [assumption|constructor; [intros []|constructor]|].
      intros a Ha [<-|[]].
      apply dict_get_none in Hg.
      pose proof (fold_case_absent _ _ Hg) as Hf.
      apply in_map_iff in Ha as (e & He & Hin).
      rewrite Forall_forall in Hf. apply (Hf e Hin).
      rewrite He. apply fold_case_lower.
Qed.

Lemma agg_inv0 : agg_inv globals0.
Proof. repeat split; simpl; constructor. Qed.

Lemma add_events_inv (l : list occurrence) (g : globals) :
  agg_inv g -> agg_inv (add_events g l).
Proof.
  revert g. induction l as [|o t IH]; intros g Hg; simpl; [assumption|].
  apply IH. now apply add_event_inv.
Qed.

Lemma fold_case_empty (ks : list string) : fold_case ks "" = "".
Proof.
  induction ks as [|e t IH]; simpl; [reflexivity|].
  destruct (String.eqb (lower e) "") eqn:E; [|exact IH].
  apply String.eqb_eq in E. now apply lower_empty.
Qed.

(** ** Equality of components and removal from the pool *)

Lemma dt_eqb_refl (a : datetime) : dt_eqb a a = true.
Proof. apply Z.eqb_refl. Qed.

Lemma component_eqb_refl (e : component) : component_eqb e e = true.
Proof.
  unfold component_eqb.
  assert (Ho : forall o : option string, option_eqb String.eqb o o = true)
    by (intros [x|]; simpl; [apply String.eqb_refl|reflexivity]).
  assert (Hd : forall o : option datetime, option_eqb dt_eqb o o = true)
    by (intros [x|]; simpl; [apply dt_eqb_refl|reflexivity]).
  assert (Hl : forall l : list datetime, list_eqb dt_eqb l l = true)
    by (induction l; simpl; [reflexivity|now rewrite dt_eqb_refl]).
  now rewrite String.eqb_refl, !Ho, !dt_eqb_refl, Hl, Hd.
Qed.

(** Converting two equal instants to UTC gives the same wall clock. *)
Lemma astimezone_utc_eq (a b : datetime) :
  dt_eqb a b = true -> astimezone a UTC = astimezone b UTC.
Proof.
  unfold dt_eqb, astimezone. intros H. apply Z.eqb_eq in H. now rewrite H.
Qed.

Lemma timestamp_astimezone (a : datetime) (tz : tzinfo) :
  timestamp (astimezone a tz) = timestamp a.
Proof. unfold astimezone, timestamp; simpl. lia. Qed.

(** An exact match is a date-level match. *)
Lemma exact_is_date_match (i : datetime) (e : component) :
  exact_match i e = true -> date_match i e = true.
Proof.
  unfold exact_match, date_match. destruct (RECURRENCE_ID e) as [rid|]; [|easy].
  unfold dt_eqb. rewrite !timestamp_astimezone. intros H.
  apply Z.eqb_eq in H. unfold astimezone. simpl. rewrite H. apply Z.eqb_refl.
Qed.

(** Components that are equal for Python are candidates together. *)
Lemma component_eqb_candidate (c : component) (i : datetime) (x e : component) :
  component_eqb x e = true -> candidate c i x = candidate c i e.
Proof.
  unfold component_eqb. rewrite !andb_true_iff.
  intros [[[[[[Hu _] _] _] _] _] Hr].
  unfold candidate, same_series, date_match.
  apply String.eqb_eq in Hu. rewrite Hu. f_equal.
  destruct (RECURRENCE_ID x) as [rx|], (RECURRENCE_ID e) as [re|];
    simpl in Hr; try discriminate; [|reflexivity].
  now rewrite (astimezone_utc_eq _ _ Hr).
Qed.

(** [remove] takes out the very record the loop stopped at. *)
Lemma list_remove_find (c : component) (i : datetime) (l : list component)
      (e : component) :
  find (candidate c i) l = Some e ->
  exists l1 l2, l = (l1 ++ e :: l2)%list
                /\ list_remove e l = (l1 ++ l2)%list
                /\ Forall (fun x => candidate c i x = false) l1.
Proof.
  induction l as [|a t IH]; simpl; [discriminate|].
  destruct (candidate c i a) eqn:Ha.
  - intros H. injection H as ->. exists [], t.
    rewrite component_eqb_refl. repeat split. constructor.
  - intros H. pose proof (find_some _ _ H) as [_ He].
    destruct (component_eqb a e) eqn:Eq.
    + rewrite (component_eqb_candidate c i _ _ Eq) in Ha. congruence.
    + destruct (IH H) as (l1 & l2 & -> & Hr & Hf).
      exists (a :: l1), l2. simpl. rewrite Hr. repeat split.
      now constructor.
Qed.

Lemma origins_app (l1 l2 : list (occurrence * option component)) :
  origins (l1 ++ l2) = (origins l1 ++ origins l2)%list.
Proof.
  induction l1 as [|[o [e|]] t IH]; simpl; [reflexivity| |assumption].
  now rewrite IH.
Qed.

(** ** The matching loop *)

Lemma scan_spec (c : component) (i : datetime) (copy : list component)
      (st : state) :
  scan c i copy st =
  match find (candidate c i) copy with
  | Some e => (true, consume c e st)
  | None => (false, st)
  end.
Proof.
  induction copy as [|e rest IH]; simpl; [reflexivity|].
  unfold candidate, same_series, date_match, consume.
  destruct (String.eqb (UID e) (UID c)); simpl; [|exact IH].
  destruct (RECURRENCE_ID e) as [rid|] eqn:Hr; [|exact IH].
  destruct (date_of (astimezone i UTC) =? date_of (astimezone rid UTC)) eqn:Hd;
    [reflexivity|].
  destruct (dt_eqb (astimezone i UTC) (astimezone rid UTC)) eqn:Hx; [|exact IH].
  pose proof (exact_is_date_match i e) as H.
  unfold exact_match, date_match in H. rewrite Hr in H.
  rewrite (H Hx) in Hd. discriminate Hd.
Qed.

Lemma process_instant_spec (c : component) (st : state) (i : datetime) :
  process_instant c st i =
  match find (candidate c i) (recurrence_list st) with
  | Some e => consume c e st
  | None => call_add_event st None i (dt_sub (DTEND c) (DTSTART c))
                           (str_summary (SUMMARY c))
  end.
Proof.
  unfold process_instant. rewrite scan_spec.
  destruct (find (candidate c i) (recurrence_list st)); reflexivity.
Qed.

Lemma process_instant_calls (c : component) (st : state) (i : datetime) :
  calls (process_instant c st i)
  = (calls st ++ [resolve c i (recurrence_list st)])%list.
Proof.
  rewrite process_instant_spec. unfold resolve.
  destruct (find (candidate c i) (recurrence_list st)); reflexivity.
Qed.

Lemma process_instant_pool (c : component) (st : state) (i : datetime) :
  recurrence_list (process_instant c st i)
  = pool_after c i (recurrence_list st).
Proof.
  rewrite process_instant_spec. unfold pool_after.
  destruct (find (candidate c i) (recurrence_list st)); reflexivity.
Qed.

Lemma process_instant_raised (c : component) (st : state) (i : datetime) :
  raised (process_instant c st i) = raised st.
Proof.
  rewrite process_instant_spec.
  destruct (find (candidate c i) (recurrence_list st)); reflexivity.
Qed.

Lemma process_instants_calls (c : component) (instants : list datetime)
      (st : state) :
  calls (fold_left (process_instant c) instants st)
  = (calls st ++ resolve_all c (recurrence_list st) instants)%list.
Proof.
  revert st. induction instants as [|i t IH]; intros st; simpl.
  - now rewrite app_nil_r.
  - rewrite IH, process_instant_calls, process_instant_pool.
    now rewrite <- app_assoc.
Qed.

Lemma process_instants_raised (c : component) (instants : list datetime)
      (st : state) :
  raised (fold_left (process_instant c) instants st) = raised st.
Proof.
  revert st. induction instants as [|i t IH]; intros st; simpl;
    [reflexivity|].
  now rewrite IH, process_instant_raised.
Qed.

Lemma resolve_all_length (c : component) (instants : list datetime)
      (pool : list component) :
  List.length (resolve_all c pool instants) = List.length instants.
Proof.
  revert pool. induction instants as [|i t IH]; intros pool; simpl;
    [reflexivity|now rewrite IH].
Qed.

(** ** The invariant of the main loop *)

Lemma add_events_app (g : globals) (l1 l2 : list occurrence) :
  add_events g (l1 ++ l2) = add_events (add_events g l1) l2.
Proof. unfold add_events. apply fold_left_app. Qed.

Lemma call_add_event_inv pool0 st origin dt dur s :
  origin = None ->
  run_inv pool0 st -> run_inv pool0 (call_add_event st origin dt dur s).
Proof.
  intros -> (Hp & Ho & Hg). unfold run_inv; simpl.
  rewrite origins_app, map_app, add_events_app, <- Hg; simpl.
  rewrite app_nil_r. repeat split; assumption.
Qed.

Lemma consume_inv pool0 c i e st :
  find (candidate c i) (recurrence_list st) = Some e ->
  run_inv pool0 st -> run_inv pool0 (consume c e st).
Proof.
  intros Hf (Hp & Ho & Hg). unfold run_inv, consume; simpl.
  destruct (list_remove_find _ _ _ _ Hf) as (l1 & l2 & Hl & Hr & _).
  rewrite Hr, origins_app, map_app, add_events_app, <- Hg, Ho; simpl.
  repeat split.
  rewrite Hl in Hp. rewrite <- Hp, <- app_assoc.
  apply Permutation_app_head. simpl. apply Permutation_middle.
Qed.

Lemma process_instant_inv pool0 c st i :
  run_inv pool0 st -> run_inv pool0 (process_instant c st i).
Proof.
  intros H. rewrite process_instant_spec.
  destruct (find (candidate c i) (recurrence_list st)) eqn:Hf.
  - now apply (consume_inv pool0 c i).
  - now apply call_add_event_inv.
Qed.

Lemma process_instants_inv pool0 c instants st :
  run_inv pool0 st -> run_inv pool0 (fold_left (process_instant c) instants st).
Proof.
  revert st. induction instants as [|i t IH]; intros st H; simpl;
    [assumption|].
  apply IH. now apply process_instant_inv.
Qed.

Lemma process_vevent_inv pool0 st v :
  run_inv pool0 st -> run_inv pool0 (process_vevent st v).
Proof.
  intros H. unfold process_vevent.
  destruct (raised st); [assumption|].
  destruct v as [| c]; [assumption|].
  destruct (RECURRENCE_ID c); [assumption|].
  destruct (rrule_text c) as [text|]; [|now apply call_add_event_inv].
  destruct (rrulestr text (DTSTART c)) as [generated|e];
    [now apply process_instants_inv|exact H].
Qed.

Lemma fold_process_inv pool0 feed st :
  run_inv pool0 st -> run_inv pool0 (fold_left process_vevent feed st).
Proof.
  revert st. induction feed as [|v t IH]; intros st H; simpl; [assumption|].
  apply IH. now apply process_vevent_inv.
Qed.

Lemma run_inv_run (feed : list vevent) : run_inv (collect feed) (run feed).
Proof.
  apply fold_process_inv. unfold run_inv; simpl.
  repeat split. apply Permutation_refl.
Qed.

(** ** Exceptions *)

Lemma fold_process_raised (feed : list vevent) (st : state) (e : exn) :
  raised st = Some e -> fold_left process_vevent feed st = st.
Proof.
  induction feed as [|v t IH]; intros H; simpl; [reflexivity|].
  unfold process_vevent at 2. rewrite H. now apply IH.
Qed.

Lemma process_vevent_ok (st : state) (v : vevent) :
  raised st = None -> malformed v = false ->
  raised (process_vevent st v) = None.
Proof.
  intros H Hm. unfold process_vevent. rewrite H.
  destruct v as [| c]; [assumption|]. simpl in Hm.
  destruct (RECURRENCE_ID c); [assumption|].
  destruct (rrule_text c) as [text|]; [|assumption].
  destruct (rrulestr text (DTSTART c)) as [generated|e]; [|discriminate].
  now rewrite process_instants_raised.
Qed.

Lemma fold_process_ok (feed : list vevent) (st : state) :
  raised st = None -> forallb (fun v => negb (malformed v)) feed = true ->
  raised (fold_left process_vevent feed st) = None.
Proof.
  revert st. induction feed as [|v t IH]; intros st H Hf; simpl;
    [assumption|].
  simpl in Hf. apply andb_true_iff in Hf as [Hv Ht].
  apply IH; [|assumption].
  apply process_vevent_ok; [assumption|].
  now destruct (malformed v).
Qed.

Lemma process_vevent_raises (st : state) (c : component) (text : string)
      (e : exn) :
  raised st = None -> RECURRENCE_ID c = None -> rrule_text c = Some text ->
  rrulestr text (DTSTART c) = Raises e ->
  process_vevent st (TimedEvent c) = raise e st.
Proof.
  intros H Hid Hrule Hr. unfold process_vevent.
  now rewrite H, Hid, Hrule, Hr.
Qed.

Lemma process_vevent_single (st : state) (c : component) :
  raised st = None -> RECURRENCE_ID c = None -> rrule_text c = None ->
  process_vevent st (TimedEvent c)
  = call_add_event st None (DTSTART c) (dt_sub (DTEND c) (DTSTART c))
                   (str_summary (SUMMARY c)).
Proof.
  intros H Hid Hrule. unfold process_vevent. now rewrite H, Hid, Hrule.
Qed.

(** ** Exclusion dates *)

Lemma rruleset_list_excluded (generated exdates : list datetime)
      (x ex : datetime) :
  In x (rruleset_list generated exdates) -> In ex exdates ->
  dt_eqb x ex = false.
Proof.
  unfold rruleset_list. intros Hx Hex.
  apply filter_In in Hx as [_ Hx]. apply negb_true_iff in Hx.
  destruct (dt_eqb x ex) eqn:E; [|reflexivity].
  assert (existsb (dt_eqb x) exdates = true)
    by (apply existsb_exists; now exists ex).
  congruence.
Qed.

Lemma drop_repeats_incl (l : list datetime) (last : option datetime)
      (x : datetime) :
  In x (drop_repeats last l) -> In x l.
Proof.
  revert last. induction l as [|a t IH]; intros last; simpl; [intros []|].
  destruct last as [y|]; [destruct (dt_eqb y a)|]; simpl;
    intros H; try (destruct H as [H|H]; [now left|]); right; eapply IH; eauto.
Qed.

Lemma exdates_of_walls (c c' : component) :
  utcoffset (DTSTART c) = utcoffset (DTSTART c') ->
  map wall (EXDATE c) = map wall (EXDATE c') ->
  exdates_of c = exdates_of c'.
Proof.
  unfold exdates_of. intros ->. generalize (EXDATE c'). 
  induction (EXDATE c) as [|a t IH]; intros [|b u]; simpl;
    try discriminate; [reflexivity|].
  intros H. injection H as Hw Ht. unfold replace_tzinfo at 1 3.
  rewrite Hw. f_equal. now apply IH.
Qed.

Lemma fold_case_present (ks : list string) (k c : string) :
  NoDup (map lower ks) -> In k ks -> lower k = lower c -> fold_case ks c = k.
Proof.
  induction ks as [|e t IH]; simpl; [intros _ []|].
  intros Hn Hin Hl. apply NoDup_cons_iff in Hn as [Hne Hn].
  destruct (String.eqb (lower e) (lower c)) eqn:E.
  - destruct Hin as [->|Hin]; [reflexivity|].
    apply String.eqb_eq in E. exfalso. apply Hne.
    rewrite E, <- Hl. now apply in_map.
  - destruct Hin as [->|Hin]; [|now apply IH].
    apply String.eqb_neq in E. contradiction.
Qed.

Lemma count_events_add_event (g : globals) dt dur s :
  count_events (event_dict (add_event g dt dur s))
  = (count_events (event_dict g) + if in_window dt then 1 else 0)%nat.
Proof.
  destruct (in_window dt) eqn:Hw.
  - rewrite add_event_in by assumption. simpl.
    destruct (dict_get _ (event_dict g)) as [[tot evs]|] eqn:Hg.
    + rewrite (count_events_set_present _ _ _ _ _ _ Hg). lia.
    + rewrite (count_events_set_absent _ _ _ _ Hg). lia.
  - rewrite add_event_out by assumption. lia.
Qed.

(** ** The claims *)

(** C1 (as amended).  For every generated instant [i] of a series [c] the
    matching loop consumes the first record of the pool, in pool order,
    that has the UID of the series and whose RECURRENCE-ID falls on the
    UTC date of [i], whether that record matches [i] exactly or by date
    only: the records before it are no candidates and it is the one taken
    out.  Every exactly-matching record of the series is such a candidate,
    and when the pool holds no candidate nothing is consumed and no record
    of the series matches exactly. *)
Theorem C1_first_date_level_candidate_is_consumed
        (c : component) (i : datetime) (st : state) :
  let st' := process_instant c st i in
  (forall e, same_series c e && exact_match i e = true ->
             candidate c i e = true)
  /\ match find (candidate c i) (recurrence_list st) with
     | Some e =>
         consumed st' = (consumed st ++ [e])%list
         /\ exists l1 l2,
             recurrence_list st = (l1 ++ e :: l2)%list
             /\ recurrence_list st' = (l1 ++ l2)%list
             /\ Forall (fun x => candidate c i x = false) l1
     | None =>
         consumed st' = consumed st
         /\ recurrence_list st' = recurrence_list st
         /\ Forall (fun e => same_series c e && exact_match i e = false)
                   (recurrence_list st)
     end.
Proof.
  intros st'. subst st'. split.
  - intros e H. apply andb_true_iff in H as [Hs Hx].
    unfold candidate. now rewrite Hs, (exact_is_date_match _ _ Hx).
  - rewrite process_instant_spec.
    destruct (find (candidate c i) (recurrence_list st)) as [e|] eqn:Hf.
    + split; [reflexivity|].
      destruct (list_remove_find _ _ _ _ Hf) as (l1 & l2 & Hl & Hr & Hn).
      exists l1, l2. simpl. now rewrite Hr.
    + repeat split. apply Forall_forall. intros e He.
      pose proof (find_none _ _ Hf e He) as Hc. unfold candidate in Hc.
      destruct (same_series c e); [simpl in *|reflexivity].
      destruct (exact_match i e) eqn:Hx; [|reflexivity].
      now rewrite (exact_is_date_match _ _ Hx) in Hc.
Qed.

(** C2.  Over a whole run, the records removed from the pool together
    with the records still in it are a rearrangement of the pool the run
    started with; the records that produced a resolved occurrence are
    exactly the removed ones, one occurrence each; so no record produces
    more occurrences, or is removed more often, than it occurs in the
    feed. *)
Theorem C2_override_consumed_at_most_once (feed : list vevent) :
  let st := run feed in
  Permutation (consumed st ++ recurrence_list st) (collect feed)
  /\ origins (calls st) = consumed st
  /\ forall e,
      (count_occ component_eq_dec (origins (calls st)) e
       + count_occ component_eq_dec (recurrence_list st) e
       = count_occ component_eq_dec (collect feed) e)%nat.
Proof.
  intros st. destruct (run_inv_run feed) as (Hp & Ho & _). fold st in Hp, Ho.
  repeat split; try assumption.
  intros e. rewrite Ho, <- count_occ_app.
  now apply Permutation_count_occ.
Qed.

(** C3 (as amended).  Nothing catches what [rrulestr] raises on the rule
    text of a series, be it ValueError or TypeError: the run ends at that
    series with that exception, in the state the VEVENTs before it left;
    no VEVENT after it is processed and nothing is printed, whatever the
    window.  A rule whose text is empty is false at line 121: its VEVENT
    is handled as a single event and [rrulestr] is not called. *)
Theorem C3_unparsable_rule_aborts_the_run
        (pre post : list vevent) (c : component) (text : string) (e : exn) :
  forallb (fun v => negb (malformed v)) pre = true ->
  RECURRENCE_ID c = None ->
  rrule_text c = Some text ->
  rrulestr text (DTSTART c) = Raises e ->
  let feed := (pre ++ TimedEvent c :: post)%list in
  let before := fold_left process_vevent pre (state0 (collect feed)) in
  run feed = raise e before
  /\ raised (run feed) = Some e
  /\ glob (run feed) = glob before
  /\ calls (run feed) = calls before
  /\ (forall ds de cw, report ds de cw (run feed) = loop_raised e)
  /\ (forall st c',
         raised st = None -> RECURRENCE_ID c' = None -> RRULE c' = Some "" ->
         process_vevent st (TimedEvent c')
         = call_add_event st None (DTSTART c')
                          (dt_sub (DTEND c') (DTSTART c'))
                          (str_summary (SUMMARY c'))).
Proof.
  intros Hpre Hid Hrule Hr feed before.
  assert (H : run feed = raise e before).
  { unfold run. unfold feed at 1. rewrite fold_left_app. simpl.
    rewrite (process_vevent_raises _ c text e);
      [|now apply fold_process_ok|assumption..].
    now apply (fold_process_raised post _ e). }
  rewrite H. do 4 (split; [reflexivity|]).
  split; [reflexivity|].
  intros st c' Hst Hid' Hrule'. apply process_vevent_single; try assumption.
  unfold rrule_text. now rewrite Hrule'.
Qed.

(** C4 (as amended).  An exclusion date is not converted to the zone of
    the series: [replace(tzinfo = ...)] puts the tzinfo of DTSTART on its
    wall clock as it stands.  So an instant of the generated list stays
    in the expansion exactly when no exclusion date, so re-tagged,
    denotes it; for an instant on the series' tzinfo that is when no
    exclusion date has its wall clock, whatever offset the exclusion
    date was tagged with.  No instant of the expansion equals a
    re-tagged exclusion date, nor an exclusion date that came on the
    offset of the series; the expansion adds nothing to the generated
    list and depends on the wall clocks of the exclusion dates only. *)
Theorem C4_exclusion_dates_are_removed
        (c : component) (generated : list datetime) (e : datetime) :
  In e (EXDATE c) ->
  let e' := replace_tzinfo e (utcoffset (DTSTART c)) in
  (forall x, In x (expand c generated) -> dt_eqb x e' = false)
  /\ (utcoffset e = utcoffset (DTSTART c) ->
      forall x, In x (expand c generated) -> dt_eqb x e = false)
  /\ (forall g, utcoffset g = utcoffset (DTSTART c) -> wall g = wall e ->
                ~ In g (expand c generated))
  /\ (forall x, In x (expand c generated) -> In x generated)
  /\ (forall c', utcoffset (DTSTART c') = utcoffset (DTSTART c) ->
                 map wall (EXDATE c') = map wall (EXDATE c) ->
                 expand c' generated = expand c generated)
  /\ (forall x, In x (expand c generated)
                <-> In x (drop_repeats None generated)
                    /\ forall ex, In ex (EXDATE c) ->
                                  timestamp x
                                  <> wall ex - utcoffset (DTSTART c))
  /\ (forall g, utcoffset g = utcoffset (DTSTART c) ->
                (In g (expand c generated)
                 <-> In g (drop_repeats None generated)
                     /\ forall ex, In ex (EXDATE c) -> wall ex <> wall g)).
Proof.
  intros He e'.
  assert (Hin : In e' (exdates_of c))
    by (unfold exdates_of; apply in_map_iff; now exists e).
  assert (H1 : forall x, In x (expand c generated) -> dt_eqb x e' = false)
    by (intros x Hx; now apply (rruleset_list_excluded generated (exdates_of c))).
  assert (H6 : forall x, In x (expand c generated)
                         <-> In x (drop_repeats None generated)
                             /\ forall ex, In ex (EXDATE c) ->
                                           timestamp x
                                           <> wall ex - utcoffset (DTSTART c)).
  { intros x. unfold expand, rruleset_list. rewrite filter_In.
    split; intros [Hx Hf]; (split; [exact Hx|]).
    - intros ex Hex Heq. apply negb_true_iff in Hf.
      assert (Ht : existsb (dt_eqb x) (exdates_of c) = true).
      { apply existsb_exists.
        exists (replace_tzinfo ex (utcoffset (DTSTART c))). split.
        - unfold exdates_of. apply in_map_iff. now exists ex.
        - unfold dt_eqb. apply Z.eqb_eq. exact Heq. }
      congruence.
    - apply negb_true_iff.
      destruct (existsb (dt_eqb x) (exdates_of c)) eqn:E; [|reflexivity].
      apply existsb_exists in E as (y & Hy & Hxy).
      unfold exdates_of in Hy. apply in_map_iff in Hy as (ex & <- & Hex).
      unfold dt_eqb in Hxy. apply Z.eqb_eq in Hxy.
      now destruct (Hf ex Hex). }
  split; [|split; [|split; [|split; [|split; [|split]]]]].
  - exact H1.
  - intros Hoff x Hx. rewrite <- (H1 x Hx).
    unfold dt_eqb, timestamp, e'. simpl. now rewrite Hoff.
  - intros g Hoff Hw Hg. specialize (H1 g Hg).
    unfold dt_eqb, timestamp, e' in H1. simpl in H1.
    rewrite Hoff, Hw, Z.eqb_refl in H1. discriminate H1.
  - intros x Hx. unfold expand, rruleset_list in Hx.
    apply filter_In in Hx as [Hx _]. now apply drop_repeats_incl in Hx.
  - intros c' Ho Hw. unfold expand. now rewrite (exdates_of_walls c' c).
  - exact H6.
  - intros g Hoff. rewrite H6. unfold timestamp. rewrite Hoff.
    split; intros [Hg Hf]; (split; [exact Hg|]); intros ex Hex Heq;
      apply (Hf ex Hex); lia.
Qed.

(** C5.  A series on whose rule [rrulestr] returns calls [add_event]
    once for each instant of its expansion, in order.  Where the loop
    stops at a pool record, the call has the DTSTART of the record, its
    DTEND less its DTSTART, and its SUMMARY, or the SUMMARY of the series
    when the record has none or an empty one; where no record is a
    candidate, the call has the instant, the DTEND of the series less its
    DTSTART, and the SUMMARY of the series.  The SUMMARY of a series that
    has none is the text [None].  So the calls made are as many as the
    instants. *)
Theorem C5_one_resolved_occurrence_per_instant
        (c : component) (st : state) (text : string)
        (generated : list datetime) :
  raised st = None ->
  RECURRENCE_ID c = None ->
  rrule_text c = Some text ->
  rrulestr text (DTSTART c) = Generated generated ->
  let st' := process_vevent st (TimedEvent c) in
  let instants := expand c generated in
  let default := match SUMMARY c with Some s => s | None => "None" end in
  let built (i : datetime) (pool : list component) :=
    match find (candidate c i) pool with
    | Some e =>
        ((DTSTART e, timestamp (DTEND e) - timestamp (DTSTART e),
          match SUMMARY e with
          | Some s => if String.eqb s "" then default else s
          | None => default
          end), Some e)
    | None =>
        ((i, timestamp (DTEND c) - timestamp (DTSTART c), default), None)
    end in
  calls st' = (calls st ++ resolve_all c (recurrence_list st) instants)%list
  /\ List.length (calls st')
     = (List.length (calls st) + List.length instants)%nat
  /\ (forall i, calls (process_instant c st i)
                = (calls st ++ [built i (recurrence_list st)])%list)
  /\ (forall i pool, resolve c i pool = built i pool)
  /\ (forall i pool t,
         resolve_all c pool (i :: t)
         = built i pool :: resolve_all c (pool_after c i pool) t).
Proof.
  intros Hr Hid Hrule Hgen st' instants default built.
  assert (H : calls st'
              = (calls st ++ resolve_all c (recurrence_list st) instants)%list).
  { unfold st', process_vevent. rewrite Hr, Hid, Hrule, Hgen.
    apply process_instants_calls. }
  assert (Hb : forall i pool, resolve c i pool = built i pool).
  { intros i pool. unfold resolve, built, override_occurrence,
      plain_occurrence, summary_or, str_summary, dt_sub, default.
    destruct (find (candidate c i) pool); reflexivity. }
  split; [exact H|]. split; [|split; [|split]].
  - now rewrite H, length_app, resolve_all_length.
  - intros i. rewrite process_instant_calls. now rewrite Hb.
  - exact Hb.
  - intros i pool t. simpl. now rewrite Hb.
Qed.


(** C7.  [add_event] keeps an occurrence, that is, changes the state by
    storing one more event, exactly when [dstart <= d <= dend], both ends
    included, for [d] the date on the wall clock of the occurrence's own
    start; the UTC offset of the start plays no part. *)
Theorem C7_window_test_on_own_date
        (g : globals) (dt : datetime) (dur : timedelta) (s : string) :
  (add_event g dt dur s <> g <-> dstart <= date_of dt <= dend)
  /\ count_events (event_dict (add_event g dt dur s))
     = (count_events (event_dict g) + if in_window dt then 1 else 0)%nat
  /\ date_of dt = wall dt / 86400
  /\ forall tz, in_window (replace_tzinfo dt tz) = in_window dt.
Proof.
  split; [split|split; [|split]].
  - intros H. apply in_window_iff.
    destruct (in_window dt) eqn:Hw; [reflexivity|].
    now rewrite add_event_out in H.
  - intros H Heq. apply in_window_iff in H.
    pose proof (count_events_add_event g dt dur s) as Hc.
    rewrite Heq, H in Hc. lia.
  - apply count_events_add_event.
  - reflexivity.
  - reflexivity.
Qed.

(** C8.  Keys are compared up to case and the key stored is the first
    casing seen: the keys of a reachable dictionary are pairwise different
    up to case; a call whose category equals up to case a key [k] that is
    present adds no key and adds its event and duration to the bucket of
    [k]; and two calls from the empty state whose categories are equal up
    to case leave one bucket, keyed by the first category, holding both
    events and the sum of both durations. *)
Theorem C8_buckets_fold_case
        (l : list occurrence) (g : globals)
        (dt1 dt2 : datetime) (dur1 dur2 : timedelta) (s1 s2 k : string) :
  NoDup (map lower (keys (event_dict (add_events globals0 l))))
  /\ (in_window dt1 = true ->
      NoDup (map lower (keys (event_dict g))) ->
      In k (keys (event_dict g)) ->
      lower (classify (slice200 s1)) = lower k ->
      let g' := add_event g dt1 dur1 s1 in
      keys (event_dict g') = keys (event_dict g)
      /\ ev_category (stored_event g dt1 dur1 s1) = k
      /\ exists tot evs,
          dict_get k (event_dict g) = Some (tot, evs)
          /\ dict_get k (event_dict g')
             = Some (tot + dur1, (evs ++ [stored_event g dt1 dur1 s1])%list))
  /\ (in_window dt1 = true -> in_window dt2 = true ->
      lower (classify (slice200 s2)) = lower (classify (slice200 s1)) ->
      let k1 := classify (slice200 s1) in
      event_dict (add_event (add_event globals0 dt1 dur1 s1) dt2 dur2 s2)
      = [(k1, (dur1 + dur2,
               [mk_Event dt1 dur1 (slice200 s1)
                         (iso_year dt1) (iso_week dt1) k1;
                mk_Event dt2 dur2 (slice200 s2)
                         (iso_year dt2) (iso_week dt2) k1]))]).
Proof.
  split; [|split].
  - now destruct (add_events_inv l globals0 agg_inv0) as (_ & _ & _ & Hn).
  - intros Hw Hn Hin Hl g'.
    assert (Hf : fold_case (keys (event_dict g)) (classify (slice200 s1)) = k)
      by (apply fold_case_present; auto).
    destruct (in_keys_get _ _ Hin) as [[tot evs] Hg].
    subst g'. rewrite add_event_in by assumption. simpl.
    rewrite Hf, Hg. split; [|split].
    + now apply keys_set_present with (v0 := (tot, evs)).
    + reflexivity.
    + exists tot, evs. split; [reflexivity|apply dict_get_set_same].
  - intros Hw1 Hw2 Hl k1. subst k1.
    rewrite (add_event_in _ dt2) by assumption.
    rewrite (add_event_in _ dt1) by assumption. simpl.
    unfold stored_event. simpl.
    rewrite !Hl, !String.eqb_refl. simpl. reflexivity.
Qed.

(** C10.  A title whose matched prefix holds no alphanumeric character is
    put in the bucket keyed by the empty string, whatever the state: that
    key is not the sentinel, the sentinel's bucket is left as it was, and
    the duration is added to the grand total. *)
Theorem C10_empty_category_is_counted
        (g : globals) (dt : datetime) (dur : timedelta) (s m : string) :
  in_window dt = true ->
  category_match (slice200 s) = Some m ->
  alnum_join m = "" ->
  let g' := add_event g dt dur s in
  "" <> CATEGORY_IGNORED
  /\ ev_category (stored_event g dt dur s) = ""
  /\ total_duration g' = total_duration g + dur
  /\ dict_get "" (event_dict g')
     = Some match dict_get "" (event_dict g) with
            | Some (tot, evs) =>
                (tot + dur, (evs ++ [stored_event g dt dur s])%list)
            | None => (dur, [stored_event g dt dur s])
            end
  /\ dict_get CATEGORY_IGNORED (event_dict g')
     = dict_get CATEGORY_IGNORED (event_dict g).
Proof.
  intros Hw Hm Hj g'.
  assert (Hc : fold_case (keys (event_dict g)) (classify (slice200 s)) = "")
    by (unfold classify; rewrite Hm, Hj; apply fold_case_empty).
  subst g'. rewrite add_event_in by assumption. simpl. rewrite Hc, Hm.
  split; [|split; [|split; [|split]]].
  - discriminate.
  - reflexivity.
  - reflexivity.
  - apply dict_get_set_same.
  - apply dict_get_set_other. discriminate.
Qed.

(** ** The Gregorian calendar *)

Lemma check_from_sound (p : Z -> bool) (n : nat) (lo d : Z) :
  check_from p n lo = true -> lo <= d < lo + 2 ^ Z.of_nat n -> p d = true.
Proof.
  revert lo d. induction n as [|n IH]; intros lo d H Hd.
  - simpl in *. replace d with lo by lia. exact H.
  - cbn [check_from] in H. apply andb_true_iff in H as [H1 H2].
    rewrite Nat2Z.inj_succ, Z.pow_succ_r in Hd by lia.
    destruct (Z_lt_le_dec d (lo + 2 ^ Z.of_nat n)).
    + apply (IH lo); [assumption|lia].
    + apply (IH (lo + 2 ^ Z.of_nat n)); [assumption|lia].
Qed.

Lemma jan1_step (y : Z) :
  days_of_jan1 (y + 1) - days_of_jan1 y = if is_leap y then 366 else 365.
Proof.
  unfold days_of_jan1, is_leap.
  replace (y + 1 - 1) with y by lia.
  destruct (y mod 4 =? 0) eqn:E4; destruct (y mod 100 =? 0) eqn:E100;
    destruct (y mod 400 =? 0) eqn:E400; simpl;
    rewrite ?Z.eqb_eq, ?Z.eqb_neq in *; cbv zeta;
    Z.to_euclidean_division_equations; lia.
Qed.

Lemma year_days_mono (a b : Z) : 0 <= a <= b -> year_days a <= year_days b.
Proof.
  unfold year_days. intros H.
  assert (Ha : a / 146096 = a / 36524 / 4)
    by (rewrite Z.div_div by lia; reflexivity).
  assert (Hb : b / 146096 = b / 36524 / 4)
    by (rewrite Z.div_div by lia; reflexivity).
  assert (a / 36524 <= b / 36524) by (apply Z.div_le_mono; lia).
  rewrite Ha, Hb.
  Z.to_euclidean_division_equations; lia.
Qed.

(** At the first and the last day of each year of an era, [year_days]
    is within the 365 numbers of that year: checked year by year. *)
Lemma year_start_table (k : Z) :
  0 <= k < 400 ->
  365 * k <= year_days (year_start k)
  /\ year_days (year_start (k + 1) - 1) <= 365 * k + 364.
Proof.
  intros Hk.
  assert (H : year_start_ok k = true).
  { apply (check_from_sound year_start_ok 9 0); [vm_compute; reflexivity|].
    change (2 ^ Z.of_nat 9) with 512. lia. }
  unfold year_start_ok in H. rewrite !orb_true_iff, andb_true_iff in H.
  rewrite Z.ltb_lt, Z.geb_le, !Z.leb_le in H. lia.
Qed.

Lemma year_of_era (doe : Z) :
  0 <= doe < 146097 ->
  let yoe := year_days doe / 365 in
  0 <= yoe < 400 /\ year_start yoe <= doe
  /\ (yoe < 399 -> doe < year_start (yoe + 1)).
Proof.
  intros Hd yoe.
  assert (Hf0 : 0 <= year_days doe) by (apply (year_days_mono 0 doe); lia).
  assert (Hf1 : year_days doe <= 145999)
    by (apply (year_days_mono doe 146096); lia).
  assert (Hy : 0 <= yoe < 400)
    by (unfold yoe; Z.to_euclidean_division_equations; lia).
  assert (Hq : 365 * yoe <= year_days doe < 365 * yoe + 365)
    by (unfold yoe; Z.to_euclidean_division_equations; lia).
  split; [assumption|]. split.
  - destruct (Z_lt_le_dec doe (year_start yoe)) as [Hlt|]; [|assumption].
    exfalso.
    assert (Hs0 : year_start 0 = 0) by reflexivity.
    assert (yoe <> 0) by (intros E; rewrite E, Hs0 in Hlt; lia).
    destruct (year_start_table (yoe - 1)) as [_ Ht]; [lia|].
    replace (yoe - 1 + 1) with yoe in Ht by lia.
    assert (year_days doe <= year_days (year_start yoe - 1))
      by (apply year_days_mono; lia).
    lia.
  - intros Hlt.
    destruct (Z_lt_le_dec doe (year_start (yoe + 1))) as [|Hge];
      [assumption|].
    exfalso.
    destruct (year_start_table (yoe + 1)) as [Ht _]; [lia|].
    assert (0 <= year_start (yoe + 1))
      by (unfold year_start; Z.to_euclidean_division_equations; lia).
    assert (year_days (year_start (yoe + 1)) <= year_days doe)
      by (apply year_days_mono; lia).
    lia.
Qed.

(** A day lies in the year [year_of_days] gives it. *)
Lemma year_of_days_bounds (d : Z) :
  days_of_jan1 (year_of_days d) <= d < days_of_jan1 (year_of_days d + 1).
Proof.
  unfold year_of_days. cbv zeta.
  set (z := d + 719468).
  set (era := z / 146097).
  set (doe := z - era * 146097).
  assert (Hdoe : 0 <= doe < 146097)
    by (unfold doe, era; Z.to_euclidean_division_equations; lia).
  fold (year_days doe).
  destruct (year_of_era doe Hdoe) as (Hy & Hlo & Hhi).
  set (yoe := year_days doe / 365) in *.
  fold (year_start yoe).
  set (doy := doe - year_start yoe).
  assert (Hdoy : 0 <= doy <= 365).
  { unfold doy. split; [lia|].
    destruct (Z.eq_dec yoe 399) as [E|E].
    - rewrite E. change (year_start 399) with 145731. lia.
    - assert (doe < year_start (yoe + 1)) by (apply Hhi; lia).
      unfold year_start in *. Z.to_euclidean_division_equations; lia. }
  set (mp := (5 * doy + 2) / 153).
  assert (Hm : (if (if mp <? 10 then mp + 3 else mp - 9) <=? 2 then 1 else 0)
               = if 306 <=? doy then 1 else 0).
  { unfold mp. destruct (306 <=? doy) eqn:E;
      [apply Z.leb_le in E|apply Z.leb_gt in E].
    - assert (10 <= (5 * doy + 2) / 153)
        by (Z.to_euclidean_division_equations; lia).
      assert ((5 * doy + 2) / 153 <= 11)
        by (Z.to_euclidean_division_equations; lia).
      destruct ((5 * doy + 2) / 153 <? 10) eqn:E1;
        [apply Z.ltb_lt in E1; lia|].
      destruct ((5 * doy + 2) / 153 - 9 <=? 2) eqn:E2; [reflexivity|].
      apply Z.leb_gt in E2. lia.
    - assert (0 <= (5 * doy + 2) / 153 < 10)
        by (Z.to_euclidean_division_equations; lia).
      destruct ((5 * doy + 2) / 153 <? 10) eqn:E1;
        [|apply Z.ltb_ge in E1; lia].
      destruct ((5 * doy + 2) / 153 + 3 <=? 2) eqn:E2; [|reflexivity].
      apply Z.leb_le in E2. lia. }
  rewrite Hm. clear Hm.
  assert (Hd : d = era * 146097 + year_start yoe + doy - 719468)
    by (unfold doy, doe, z; lia).
  clearbody doy yoe doe era z.
  unfold days_of_jan1. cbv zeta.
  destruct (306 <=? doy) eqn:E; [apply Z.leb_le in E|apply Z.leb_gt in E].
  - replace (yoe + era * 400 + 1 - 1) with (era * 400 + yoe) by lia.
    replace (yoe + era * 400 + 1 + 1 - 1) with (era * 400 + (yoe + 1)) by lia.
    unfold year_start in *. Z.to_euclidean_division_equations; lia.
  - replace (yoe + era * 400 + 0 - 1) with (era * 400 + (yoe - 1)) by lia.
    replace (yoe + era * 400 + 0 + 1 - 1) with (era * 400 + yoe) by lia.
    unfold year_start in *. Z.to_euclidean_division_equations; lia.
Qed.

(** The day [n] of the ISO week of [d] is [n - 1] days after its Monday. *)
Lemma fromisocalendar_of_week (d n : Z) :
  1 <= n <= 7 ->
  fromisocalendar (fst (week_label d)) (snd (week_label d)) n
  = Some (monday_of d + (n - 1)).
Proof.
  intros Hn. unfold week_label, isocalendar, monday_of. cbv zeta.
  cbn [fst snd].
  set (wd0 := (d + 3) mod 7).
  assert (Hwd : 0 <= wd0 < 7) by (unfold wd0; apply Z.mod_pos_bound; lia).
  set (th := d - (wd0 + 1) + 4).
  pose proof (year_of_days_bounds th) as Hb.
  set (y := year_of_days th) in *.
  pose proof (jan1_step y) as Hs.
  set (J := days_of_jan1 y) in *.
  unfold fromisocalendar, isoweek1monday, toordinal, fromordinal. cbv zeta.
  fold J.
  set (q := (th - J) / 7).
  assert (Hq : 0 <= q <= 52)
    by (unfold q; destruct (is_leap y);
        Z.to_euclidean_division_equations; lia).
  set (fw := (J + 719163 + 6) mod 7).
  assert (Hfw : 0 <= fw < 7) by (unfold fw; apply Z.mod_pos_bound; lia).
  assert (Hrel : th = (if fw >? 3 then J + 719163 - fw + 7
                       else J + 719163 - fw) - 719163 + q * 7 + 3).
  { assert (Hth : (th + 3) mod 7 = 3)
      by (unfold th, wd0; Z.to_euclidean_division_equations; lia).
    unfold q, fw. destruct ((J + 719163 + 6) mod 7 >? 3) eqn:E;
      [apply Z.gtb_lt in E|rewrite Z.gtb_ltb in E; apply Z.ltb_ge in E];
      Z.to_euclidean_division_equations; lia. }
  assert (Hthdef : th = d - (wd0 + 1) + 4) by reflexivity.
  assert (Hdiv : 7 * q <= th - J < 7 * q + 7)
    by (unfold q; Z.to_euclidean_division_equations; lia).
  assert (Hfwdef : fw = (J + 719163 + 6) mod 7) by reflexivity.
  clearbody q fw J y th wd0.
  assert (Hrange :
    (if (0 <? q + 1) && (q + 1 <? 53) then false
     else if q + 1 =? 53
          then negb (((J + 719163) mod 7 =? 4)
                     || ((J + 719163) mod 7 =? 3) && is_leap y)
          else true) = false).
  { destruct (Z.eq_dec q 52) as [E|E].
    - rewrite E. change (52 + 1 =? 53) with true. cbv iota.
      replace ((0 <? 52 + 1) && (52 + 1 <? 53)) with false by reflexivity.
      apply negb_false_iff, orb_true_iff.
      destruct (is_leap y).
      + assert (H : (J + 719163) mod 7 = 4 \/ (J + 719163) mod 7 = 3)
          by (destruct (fw >? 3); Z.to_euclidean_division_equations; lia).
        destruct H as [H|H]; rewrite H; [left|right]; reflexivity.
      + left. apply Z.eqb_eq.
        destruct (fw >? 3); Z.to_euclidean_division_equations; lia.
    - replace ((0 <? q + 1) && (q + 1 <? 53)) with true; [reflexivity|].
      symmetry. apply andb_true_iff. rewrite !Z.ltb_lt. lia. }
  rewrite Hrange.
  replace (negb ((0 <? n) && (n <? 8))) with false
    by (symmetry; apply negb_false_iff, andb_true_iff; rewrite !Z.ltb_lt; lia).
  f_equal. destruct (fw >? 3); lia.
Qed.

Lemma monday_of_bounds (d : date) : monday_of d <= d <= monday_of d + 6.
Proof.
  unfold monday_of. pose proof (Z.mod_pos_bound (d + 3) 7). lia.
Qed.

(** The days of one week have the ISO year and week of their Monday. *)
Lemma isocalendar_of_week (d n : Z) :
  1 <= n <= 7 ->
  isocalendar (monday_of d + (n - 1)) = (week_label d, n).
Proof.
  intros Hn. unfold week_label, isocalendar, monday_of. cbv zeta. simpl fst.
  assert (H1 : (d - (d + 3) mod 7 + (n - 1) + 3) mod 7 = n - 1)
    by (Z.to_euclidean_division_equations; lia).
  rewrite H1.
  replace (d - (d + 3) mod 7 + (n - 1) - (n - 1 + 1) + 4)
    with (d - ((d + 3) mod 7 + 1) + 4) by lia.
  f_equal. lia.
Qed.

Lemma week_label_monday (d : date) : week_label (monday_of d) = week_label d.
Proof.
  pose proof (isocalendar_of_week d 1) as H.
  replace (monday_of d + (1 - 1)) with (monday_of d) in H by lia.
  unfold week_label at 1. rewrite H by lia. reflexivity.
Qed.

Lemma iso_week_day_spec (d n : Z) :
  1 <= n <= 7 ->
  iso_week_day d n
  = if (1000 <=? fst (week_label d)) && (fst (week_label d) <=? 9999)
       && (date_min <=? monday_of d + (n - 1))
       && (monday_of d + (n - 1) <=? date_max)
    then Some (monday_of d + (n - 1)) else None.
Proof.
  intros Hn. pose proof (fromisocalendar_of_week d n Hn) as H.
  unfold iso_week_day, week_label in *.
  destruct (isocalendar d) as [[y w] wd]. cbn [fst snd] in *. rewrite H.
  destruct ((1000 <=? y) && (y <=? 9999)); [|reflexivity].
  cbn [andb]. reflexivity.
Qed.

Lemma week_fits_spec (d : date) :
  (week_fits d = true ->
   iso_week_day d 1 = Some (monday_of d)
   /\ iso_week_day d 7 = Some (monday_of d + 6))
  /\ (week_fits d = false ->
      iso_week_day d 1 = None \/ iso_week_day d 7 = None).
Proof.
  rewrite (iso_week_day_spec d 1), (iso_week_day_spec d 7) by lia.
  replace (monday_of d + (1 - 1)) with (monday_of d) by lia.
  replace (monday_of d + (7 - 1)) with (monday_of d + 6) by lia.
  unfold week_fits.
  destruct ((1000 <=? fst (week_label d)) && (fst (week_label d) <=? 9999));
    cbn [andb]; [|split; [discriminate|now left]].
  destruct (date_min <=? monday_of d) eqn:E1;
    destruct (monday_of d + 6 <=? date_max) eqn:E2; cbn [andb].
  - split; [intros _|discriminate].
    replace (monday_of d <=? date_max) with true
      by (symmetry; apply Z.leb_le; apply Z.leb_le in E2; lia).
    replace (date_min <=? monday_of d + 6) with true
      by (symmetry; apply Z.leb_le; apply Z.leb_le in E1; lia).
    split; reflexivity.
  - split; [discriminate|intros _]. right. now rewrite andb_false_r.
  - split; [discriminate|intros _]. left. reflexivity.
  - split; [discriminate|intros _]. left. reflexivity.
Qed.

Lemma resolve_week (d : date) :
  match iso_week_day d 1, iso_week_day d 7 with
  | Some a, Some b =>
      week_fits d = true /\ a = monday_of d /\ b = monday_of d + 6
  | _, _ => week_fits d = false
  end.
Proof.
  destruct (week_fits_spec d) as [Ht Hf].
  destruct (week_fits d).
  - destruct (Ht eq_refl) as [-> ->]. now repeat split.
  - destruct (Hf eq_refl) as [-> | ->];
      [reflexivity|now destruct (iso_week_day d 1)].
Qed.

(** The ISO year of a week is that of its Thursday. *)
Lemma week_label_year (d : date) :
  fst (week_label d) = year_of_days (monday_of d + 3).
Proof.
  unfold week_label, isocalendar, monday_of. cbv zeta. cbn [fst].
  f_equal. lia.
Qed.

(** [week_fits] names the weeks from that of 0999-12-30, the first of
    the ISO year 1000, to that of 9999-12-26, the last whose Sunday is a
    date. *)
Lemma week_fits_range (d : date) :
  week_fits d = true <-> -354287 <= d <= 2932891.
Proof.
  unfold week_fits. rewrite week_label_year.
  pose proof (year_of_days_bounds (monday_of d + 3)) as Hb.
  set (y := year_of_days (monday_of d + 3)) in *.
  assert (H1000 : days_of_jan1 1000 = -354285) by reflexivity.
  assert (H10000 : days_of_jan1 10000 = 2932897) by reflexivity.
  assert (Hlo : y < 1000 -> days_of_jan1 (y + 1) <= days_of_jan1 1000)
    by (intros Hy; rewrite H1000; unfold days_of_jan1; cbv zeta;
        Z.to_euclidean_division_equations; lia).
  assert (Hhi : 1000 <= y -> days_of_jan1 1000 <= days_of_jan1 y)
    by (intros Hy; rewrite H1000; unfold days_of_jan1; cbv zeta;
        Z.to_euclidean_division_equations; lia).
  assert (Hlo' : y <= 9999 -> days_of_jan1 (y + 1) <= days_of_jan1 10000)
    by (intros Hy; rewrite H10000; unfold days_of_jan1; cbv zeta;
        Z.to_euclidean_division_equations; lia).
  assert (Hhi' : 10000 <= y -> days_of_jan1 10000 <= days_of_jan1 y)
    by (intros Hy; rewrite H10000; unfold days_of_jan1; cbv zeta;
        Z.to_euclidean_division_equations; lia).
  rewrite H1000 in *. rewrite H10000 in *.
  change date_min with (-719162). change date_max with 2932896.
  assert (Hm : monday_of d <= d <= monday_of d + 6
               /\ (monday_of d + 3) mod 7 = 0)
    by (unfold monday_of; Z.to_euclidean_division_equations; lia).
  clearbody y. revert Hb Hm. generalize (monday_of d). intros m Hb Hm.
  rewrite !andb_true_iff, !Z.leb_le.
  split.
  - intros [[[Hy1 Hy2] Hm1] Hm2].
    specialize (Hhi Hy1). Z.to_euclidean_division_equations; lia.
  - intros Hd.
    assert (Hy1 : 1000 <= y).
    { destruct (Z_lt_le_dec y 1000) as [Hy|Hy]; [|exact Hy].
      specialize (Hlo Hy). Z.to_euclidean_division_equations; lia. }
    assert (Hy2 : y <= 9999).
    { destruct (Z_lt_le_dec y 10000) as [Hy|Hy]; [lia|].
      specialize (Hhi' Hy). Z.to_euclidean_division_equations; lia. }
    repeat split; try assumption;
      Z.to_euclidean_division_equations; lia.
Qed.

(** ** Further properties of the script *)

(** X1.  What lines 31 to 50 leave.  With no range and no week the
    window is the Monday to Sunday of today's ISO week and [cw] spells
    that week; with a week alone it is the Monday to Sunday of that week,
    after lines 42 to 45 have built the window of today's week; in both
    cases [date.fromisoformat] raises ValueError when a week it is asked
    for does not fit, that is, lies before the week of 0999-12-30 or
    after the week of 9999-12-26.  With both ends of a range and no week
    the window is the range as given and [cw] stays unbound; any other
    combination ends in [parser.error]. *)
Theorem X1_window_after_startup (args : arguments) (today : date) :
  resolve_window args today =
  match args_week args, args_dstart args, args_dend args with
  | None, None, None =>
      if week_fits today
      then started (Some (monday_of today)) (Some (monday_of today + 6))
                   (Bound (Some (week_label today)))
      else format_error
  | Some w, None, None =>
      if week_fits today && week_fits w
      then started (Some (monday_of w)) (Some (monday_of w + 6))
                   (Bound (Some (week_label w)))
      else format_error
  | None, Some a, Some b => started (Some a) (Some b) Unbound
  | _, _, _ => parser_error
  end
  /\ (forall d, week_fits d = true <-> -354287 <= d <= 2932891).
Proof.
  split; [|exact week_fits_range].
  destruct args as [[w|] [a|] [b|]]; unfold resolve_window, check_args;
    cbn [args_week args_dstart args_dend is_None negb andb orb];
    try reflexivity.
  - pose proof (resolve_week today) as Ht. pose proof (resolve_week w) as Hw.
    destruct (iso_week_day today 1) as [a|];
      [destruct (iso_week_day today 7) as [b|]|];
      try (rewrite Ht; reflexivity).
    destruct Ht as (-> & _ & _). cbn [andb].
    destruct (iso_week_day w 1) as [a'|];
      [destruct (iso_week_day w 7) as [b'|]|];
      try (rewrite Hw; reflexivity).
    destruct Hw as (-> & -> & ->). now rewrite week_label_monday.
  - pose proof (resolve_week today) as Ht.
    destruct (iso_week_day today 1) as [a|];
      [destruct (iso_week_day today 7) as [b|]|];
      try (rewrite Ht; reflexivity).
    destruct Ht as (-> & -> & ->). reflexivity.
Qed.

(** X2.  The window of an ISO week, as lines 43 to 44 and 48 to 49 build
    it from [%G-W%V] and the day digits 1 and 7.  Asked for day [n] of
    the week of a date, [date.fromisoformat] gives the day [n - 1] days
    after the Monday on or before the date, and raises ValueError when
    the ISO year of the date is not from 1000 to 9999 or that day is not
    a date.  So where the week fits, the window starts on that Monday
    and ends six days later, and a week that does not fit has no window;
    9999-12-31 is a date whose week has a Monday and no Sunday.  The
    window holds the date, and both ends carry the ISO year and week of
    the date, as weekday 1 and weekday 7. *)
Theorem X2_week_runs_monday_to_sunday (d : date) :
  (forall n, 1 <= n <= 7 ->
     iso_week_day d n
     = if (1000 <=? fst (week_label d)) && (fst (week_label d) <=? 9999)
          && (date_min <=? monday_of d + (n - 1))
          && (monday_of d + (n - 1) <=? date_max)
       then Some (monday_of d + (n - 1)) else None)
  /\ (week_fits d = true ->
      iso_week_day d 1 = Some (monday_of d)
      /\ iso_week_day d 7 = Some (monday_of d + 6))
  /\ (week_fits d = false ->
      iso_week_day d 1 = None \/ iso_week_day d 7 = None)
  /\ (week_fits d = true <-> -354287 <= d <= 2932891)
  /\ (iso_week_day date_max 1 = Some (date_max - 4)
      /\ iso_week_day date_max 7 = None)
  /\ monday_of d <= d <= monday_of d + 6
  /\ isocalendar (monday_of d) = (week_label d, 1)
  /\ isocalendar (monday_of d + 6) = (week_label d, 7).
Proof.
  pose proof (isocalendar_of_week d 1) as I1.
  pose proof (isocalendar_of_week d 7) as I7.
  replace (monday_of d + (1 - 1)) with (monday_of d) in * by lia.
  replace (monday_of d + (7 - 1)) with (monday_of d + 6) in * by lia.
  split; [intros n Hn; now apply iso_week_day_spec|].
  split; [apply week_fits_spec|]. split; [apply week_fits_spec|].
  split; [apply week_fits_range|].
  split; [split; reflexivity|].
  split; [apply monday_of_bounds|]. split; [apply I1|apply I7]; lia.
Qed.

(** X3.  [isocalendar] and [fromisocalendar] are inverse to each other
    on every date: the year, week and weekday [isocalendar] gives are
    accepted by [fromisocalendar], which gives the date back; the week is
    between 1 and 53 and the weekday between 1 and 7. *)
Theorem X3_isocalendar_round_trip (d : date) :
  let '(y, w, n) := isocalendar d in
  fromisocalendar y w n = Some d /\ 1 <= w <= 53 /\ 1 <= n <= 7.
Proof.
  destruct (isocalendar d) as [[y w] n] eqn:E.
  assert (Hn : n = (d + 3) mod 7 + 1)
    by (unfold isocalendar in E; cbv zeta in E; now injection E).
  assert (Hr : 1 <= n <= 7)
    by (pose proof (Z.mod_pos_bound (d + 3) 7); lia).
  pose proof (fromisocalendar_of_week d n Hr) as H.
  unfold week_label in H. rewrite E in H. cbn [fst snd] in H.
  replace (monday_of d + (n - 1)) with d in H by (unfold monday_of; lia).
  split; [exact H|]. split; [|exact Hr].
  unfold fromisocalendar in H. cbv zeta in H.
  destruct ((0 <? w) && (w <? 53)) eqn:Ew.
  - apply andb_true_iff in Ew. rewrite !Z.ltb_lt in Ew. lia.
  - destruct (w =? 53) eqn:E53; [apply Z.eqb_eq in E53; lia|discriminate].
Qed.

(** X4.  Where lines 31 to 50 leave a window, both of its ends are set.
    With an explicit range, [cw] was never assigned: reading it at line
    158 raises NameError and nothing is printed.  In the two other cases
    the header is printed with its week label; the header without a
    label is never printed.  [date.fromisoformat] raises only where no
    range was given, at a week that does not fit: today's, or the one of
    [--week]. *)
Theorem X4_header_needs_a_week_label
        (args : arguments) (today : date) (g : globals) :
  match resolve_window args today with
  | started ds de cw =>
      ds <> None /\ de <> None
      /\ match args_week args, args_dstart args with
         | None, Some _ => print_report ds de cw g = NameError
         | _, _ =>
             exists label body,
               print_report ds de cw g
               = stdout (header_line ds de (Some label) (total_duration g)
                         :: body)
         end
  | parser_error => check_args args = false
  | format_error =>
      args_dstart args = None /\ args_dend args = None
      /\ (week_fits today = false
          \/ exists w, args_week args = Some w /\ week_fits w = false)
  end.
Proof.
  destruct args as [[w|] [a|] [b|]]; unfold resolve_window, check_args;
    cbn [args_week args_dstart args_dend is_None negb andb orb];
    try reflexivity.
  - pose proof (resolve_week today) as Ht. pose proof (resolve_week w) as Hw.
    destruct (iso_week_day today 1) as [a|];
      [destruct (iso_week_day today 7) as [b|]|];
      try (split; [reflexivity|split; [reflexivity|now left]]).
    destruct (iso_week_day w 1) as [a'|];
      [destruct (iso_week_day w 7) as [b'|]|];
      try (split; [reflexivity|split; [reflexivity|right; now exists w]]).
    split; [discriminate|split; [discriminate|]]. simpl. eauto.
  - split; [discriminate|split; [discriminate|reflexivity]].
  - pose proof (resolve_week today) as Ht.
    destruct (iso_week_day today 1) as [a|];
      [destruct (iso_week_day today 7) as [b|]|];
      try (split; [reflexivity|split; [reflexivity|now left]]).
    split; [discriminate|split; [discriminate|]]. simpl. eauto.
Qed.

(** X5.  Looking for the calendar file: a file given on the command
    line is kept; otherwise the result is [None] exactly when no file of
    any directory ends in [.ics], and else the first such file of the
    last directory that has one, since the [break] leaves the inner loop
    only; what is found ends in [.ics] and is a bare file name of some
    directory walked. *)
Theorem X5_file_found_in_last_directory
        (walk w1 w2 : list (string * list string * list string))
        (root : string) (dirs files : list string) (f : string) :
  find_file (Some f) walk = Some f
  /\ (find_file None walk = None
      <-> Forall (fun e => Forall (fun n => endswith n ".ics" = false)
                                  (snd e)) walk)
  /\ (first_ics files = Some f ->
      Forall (fun e => first_ics (snd e) = None) w2 ->
      find_file None (w1 ++ (root, dirs, files) :: w2) = Some f)
  /\ (find_file None walk = Some f ->
      endswith f ".ics" = true /\ exists e, In e walk /\ In f (snd e)).
Proof.
  set (step := fun (file : option string)
                   (entry : string * list string * list string) =>
                 match first_ics (snd entry) with
                 | Some f => Some f
                 | None => file
                 end).
  assert (Hnone : forall fs, first_ics fs = None
                             <-> Forall (fun n => endswith n ".ics" = false) fs).
  { induction fs as [|a t IH]; simpl; [split; [constructor|reflexivity]|].
    destruct (endswith a ".ics") eqn:E; split; intros H.
    - discriminate.
    - inversion H; congruence.
    - constructor; [assumption|now apply IH].
    - inversion H; now apply IH. }
  assert (Hsome : forall fs n, first_ics fs = Some n
                               -> In n fs /\ endswith n ".ics" = true).
  { induction fs as [|a t IH]; simpl; [discriminate|]. intros n.
    destruct (endswith a ".ics") eqn:E; intros H.
    - injection H as <-. split; [now left|assumption].
    - destruct (IH n H). split; [now right|assumption]. }
  assert (Hkeep : forall w acc,
             Forall (fun e => first_ics (snd e) = None) w ->
             fold_left step w acc = acc).
  { induction w as [|e t IH]; intros acc H; simpl; [reflexivity|].
    inversion H; subst.
    replace (step acc e) with acc by (unfold step; now rewrite H2).
    now apply IH. }
  assert (Hfold : forall w acc,
             fold_left step w acc = acc
             /\ Forall (fun e => first_ics (snd e) = None) w
             \/ exists e n, In e w /\ first_ics (snd e) = Some n
                            /\ fold_left step w acc = Some n).
  { induction w as [|e t IH]; intros acc; simpl.
    - left. split; [reflexivity|constructor].
    - destruct (IH (step acc e)) as [[H1 H2]|(e' & n & Hin & Hf & Hr)].
      + rewrite H1. unfold step.
        destruct (first_ics (snd e)) as [n|] eqn:E.
        * right. exists e, n. auto.
        * left. split; [reflexivity|now constructor].
      + right. exists e', n. auto. }
  split; [reflexivity|]. split; [|split].
  - unfold find_file. fold step. split.
    + intros H. destruct (Hfold walk None) as [[_ H2]|(e & n & _ & _ & Hr)].
      * eapply Forall_impl; [|exact H2]. intros e He. now apply Hnone.
      * congruence.
    + intros H. apply Hkeep. eapply Forall_impl; [|exact H].
      intros e He. now apply Hnone.
  - intros Hf Hw2. unfold find_file. fold step.
    rewrite fold_left_app. simpl.
    replace (step (fold_left step w1 None) (root, dirs, files)) with (Some f)
      by (unfold step; simpl; now rewrite Hf).
    now apply Hkeep.
  - unfold find_file. fold step. intros H.
    destruct (Hfold walk None) as [[H1 _]|(e & n & Hin & Hfi & Hr)];
      [congruence|].
    rewrite H in Hr. injection Hr as <-.
    destruct (Hsome _ _ Hfi). split; [assumption|]. now exists e.
Qed.

(** X6.  Unfolding undoes folding: a text without a tab that was folded
    by putting a line feed and a tab in at any places comes back
    unchanged from the [replace] of line 101. *)
Theorem X6_unfolding_undoes_folding (s t : string) :
  has_tab s = false -> folded s t -> unfold_lines t = s.
Proof.
  intros Hs Hf.
  assert (Hhead : forall s t, folded s t -> has_tab s = false ->
                              forall t', t <> String TAB t').
  { intros s0 t0 H. destruct H; intros Ht t' E; try discriminate.
    injection E as -> _. simpl in Ht. discriminate Ht. }
  induction Hf as [|c s t Hf IH|s t Hf IH].
  - reflexivity.
  - simpl in Hs. apply orb_false_iff in Hs as [Hc Hs].
    specialize (IH Hs). cbn [unfold_lines].
    destruct t as [|c' t'].
    + inversion Hf; subst. reflexivity.
    + destruct (Ascii.eqb c LF && Ascii.eqb c' TAB) eqn:E.
      * apply andb_true_iff in E as [_ E]. apply Ascii.eqb_eq in E.
        subst c'. exfalso. now apply (Hhead s _ Hf Hs t').
      * now rewrite IH.
  - cbn [unfold_lines]. rewrite !Ascii.eqb_refl. simpl. now apply IH.
Qed.

(** ** Sorting *)

Section Sorting.

Variable A : Type.
Variable leb : A -> A -> bool.
Hypothesis leb_total : forall a b, leb a b = true \/ leb b a = true.





End Sorting.







(** ** More on [add_event] *)

Lemma slice200_length (s : string) : (String.length (slice200 s) <= 200)%nat.
Proof.
  unfold slice200. generalize 200%nat. intros n. revert s.
  induction n as [|n IH]; intros [|c t]; simpl; try lia.
  specialize (IH t). lia.
Qed.

Lemma dict_set_Forall (Q : string * bucket -> Prop) (k : string)
      (v : bucket) (d : dict) :
  Forall Q d -> Q (k, v) -> Forall Q (dict_set k v d).
Proof.
  intros Hd Hv. induction d as [|[k' v'] t IH]; simpl.
  - now constructor.
  - inversion Hd; subst. destruct (String.eqb k' k) eqn:E.
    + apply String.eqb_eq in E. subst k'. now constructor.
    + constructor; auto.
Qed.

Lemma dict_get_Forall (Q : string * bucket -> Prop) (k : string)
      (v : bucket) (d : dict) :
  Forall Q d -> dict_get k d = Some v -> Q (k, v).
Proof.
  induction d as [|[k' v'] t IH]; simpl; [discriminate|].
  intros Hd. inversion Hd; subst. destruct (String.eqb k' k) eqn:E.
  - apply String.eqb_eq in E. subst k'. intros H. now injection H as <-.
  - now apply IH.
Qed.

Lemma stored_event_ok (g : globals) dt dur s :
  in_window dt = true ->
  event_ok (fold_case (keys (event_dict g)) (classify (slice200 s)))
           (stored_event g dt dur s).
Proof.
  intros Hw. unfold event_ok, stored_event. simpl.
  repeat split; try assumption. apply slice200_length.
Qed.

Lemma add_event_stored_ok (g : globals) dt dur s :
  stored_ok (event_dict g) -> stored_ok (event_dict (add_event g dt dur s)).
Proof.
  intros H. destruct (in_window dt) eqn:Hw;
    [|now rewrite add_event_out].
  rewrite add_event_in by assumption. simpl.
  set (cat := fold_case (keys (event_dict g)) (classify (slice200 s))).
  pose proof (stored_event_ok g dt dur s Hw) as He. fold cat in He.
  unfold stored_ok in *.
  destruct (dict_get cat (event_dict g)) as [[tot evs]|] eqn:Hg;
    apply dict_set_Forall; try assumption; simpl.
  - apply Forall_app. split; [|now constructor].
    apply (dict_get_Forall _ _ _ _ H Hg).
  - now constructor.
Qed.

(** X8.  Every event a run of calls of [add_event] has stored carries
    the key of the bucket it is in as its category, a summary of at most
    200 characters, a start whose date lies in the window, and the ISO
    year and week of that start. *)
Theorem X8_stored_events_are_well_formed (l : list occurrence) :
  stored_ok (event_dict (add_events globals0 l)).
Proof.
  assert (H : forall g, stored_ok (event_dict g) ->
                        stored_ok (event_dict (add_events g l))).
  { induction l as [|o t IH]; intros g Hg; simpl; [assumption|].
    apply IH. now apply add_event_stored_ok. }
  apply H. constructor.
Qed.

(** X9.  Calls outside the window leave no trace: a run of calls has the
    effect of its calls that pass the window test alone, and stores as
    many events as there are such calls. *)
Theorem X9_calls_outside_the_window_are_dropped
        (g : globals) (l : list occurrence) :
  add_events g l = add_events g (filter kept l)
  /\ count_events (event_dict (add_events g l))
     = (count_events (event_dict g) + List.length (filter kept l))%nat.
Proof.
  revert g. induction l as [|o t IH]; intros g.
  - simpl. split; [reflexivity|lia].
  - destruct (IH (add_event g (fst (fst o)) (snd (fst o)) (snd o)))
      as [H1 H2].
    change (add_events g (o :: t))
      with (add_events (add_event g (fst (fst o)) (snd (fst o)) (snd o)) t).
    cbn [filter]. destruct (kept o) eqn:Hw; unfold kept in Hw.
    + change (add_events g (o :: filter kept t))
        with (add_events (add_event g (fst (fst o)) (snd (fst o)) (snd o))
                         (filter kept t)).
      split; [exact H1|].
      rewrite H2, count_events_add_event, Hw. cbn [List.length]. lia.
    + pose proof (add_event_out g _ (snd (fst o)) (snd o) Hw) as Ho.
      rewrite Ho in *. now split.
Qed.

Lemma add_event_total (g : globals) dt dur s :
  total_duration (add_event g dt dur s)
  = total_duration g
    + if in_window dt && has_category (dt, dur, s) then dur else 0.
Proof.
  unfold has_category. simpl. destruct (in_window dt) eqn:Hw.
  - rewrite add_event_in by assumption. simpl.
    destruct (category_match (slice200 s)); simpl; lia.
  - rewrite add_event_out by assumption. simpl. lia.
Qed.

Lemma bucket_total_set (k k' : string) (v : bucket) (d : dict) :
  bucket_total k (dict_set k' v d)
  = if String.eqb k' k then fst v else bucket_total k d.
Proof.
  unfold bucket_total. destruct (String.eqb k' k) eqn:E.
  - apply String.eqb_eq in E. subst k'. rewrite dict_get_set_same.
    now destruct v.
  - apply String.eqb_neq in E. rewrite dict_get_set_other by congruence.
    reflexivity.
Qed.

Lemma add_event_uncategorized (g : globals) dt dur s :
  Forall key_ok (keys (event_dict g)) ->
  bucket_total CATEGORY_IGNORED (event_dict (add_event g dt dur s))
  = bucket_total CATEGORY_IGNORED (event_dict g)
    + if in_window dt && negb (has_category (dt, dur, s)) then dur else 0.
Proof.
  intros Hk. unfold has_category. simpl. destruct (in_window dt) eqn:Hw;
    [|rewrite add_event_out by assumption; simpl; lia].
  rewrite add_event_in by assumption. simpl.
  set (cat := fold_case (keys (event_dict g)) (classify (slice200 s))).
  pose proof (counted_folded (keys (event_dict g)) (slice200 s) 1 Hk) as Hc.
  fold cat in Hc. unfold counted in Hc.
  rewrite bucket_total_set.
  destruct (String.eqb cat CATEGORY_IGNORED) eqn:E.
  - destruct (category_match (slice200 s)); [discriminate|].
    apply String.eqb_eq in E. rewrite E. unfold bucket_total.
    destruct (dict_get CATEGORY_IGNORED (event_dict g)) as [[tot evs]|];
      simpl; lia.
  - destruct (category_match (slice200 s)); [simpl; lia|discriminate].
Qed.

(** X10.  The two figures by formula: after a run of calls from the
    empty state the grand total is the sum of the durations of the calls
    that pass the window test and whose title, cut to 200 characters,
    the pattern matches; the total of the bucket [_Uncategorized_] is
    the sum of the durations of the calls that pass the window test and
    whose title it does not match. *)
Theorem X10_totals_by_formula (l : list occurrence) :
  let g := add_events globals0 l in
  total_duration g
  = sum_of (filter (fun o => kept o && has_category o) l)
  /\ bucket_total CATEGORY_IGNORED (event_dict g)
     = sum_of (filter (fun o => kept o && negb (has_category o)) l).
Proof.
  assert (H : forall g, agg_inv g ->
            total_duration (add_events g l)
            = total_duration g
              + sum_of (filter (fun o => kept o && has_category o) l)
            /\ bucket_total CATEGORY_IGNORED (event_dict (add_events g l))
               = bucket_total CATEGORY_IGNORED (event_dict g)
                 + sum_of (filter (fun o => kept o && negb (has_category o))
                                  l)).
  { induction l as [|[[dt dur] s] t IH]; intros g Hg; simpl.
    - split; lia.
    - destruct (IH (add_event g dt dur s) (add_event_inv g dt dur s Hg))
        as [H1 H2].
      rewrite H1, H2, add_event_total.
      rewrite add_event_uncategorized by apply Hg.
      unfold kept. simpl fst.
      destruct (in_window dt && has_category (dt, dur, s));
        destruct (in_window dt && negb (has_category (dt, dur, s)));
        simpl; split; lia. }
  intros g. destruct (H globals0 agg_inv0) as [H1 H2]. fold g in H1, H2.
  rewrite H1, H2. simpl. split; reflexivity.
Qed.

Lemma add_event_grows (g : globals) dt dur s :
  (exists new, keys (event_dict (add_event g dt dur s))
               = (keys (event_dict g) ++ new)%list)
  /\ forall k tot evs,
      dict_get k (event_dict g) = Some (tot, evs) ->
      exists extra,
        dict_get k (event_dict (add_event g dt dur s))
        = Some (tot + sum_durations extra, (evs ++ extra)%list).
Proof.
  destruct (in_window dt) eqn:Hw.
  - rewrite add_event_in by assumption. simpl.
    set (cat := fold_case (keys (event_dict g)) (classify (slice200 s))).
    split.
    + destruct (dict_get cat (event_dict g)) as [[tot evs]|] eqn:Hg.
      * exists []. rewrite app_nil_r.
        now apply keys_set_present with (v0 := (tot, evs)).
      * exists [cat]. now apply keys_set_absent.
    + intros k tot evs Hk. destruct (String.eqb cat k) eqn:E.
      * apply String.eqb_eq in E. rewrite E, Hk.
        exists [stored_event g dt dur s]. rewrite dict_get_set_same.
        unfold sum_durations. simpl. do 2 f_equal. lia.
      * apply String.eqb_neq in E. exists [].
        rewrite dict_get_set_other by congruence. rewrite Hk, app_nil_r.
        unfold sum_durations. simpl. do 2 f_equal. lia.
  - rewrite add_event_out by assumption. split.
    + exists []. now rewrite app_nil_r.
    + intros k tot evs Hk. exists []. rewrite Hk, app_nil_r.
      unfold sum_durations. simpl. do 2 f_equal. lia.
Qed.

Lemma sum_durations_append (a b : list Event) :
  sum_durations (a ++ b) = sum_durations a + sum_durations b.
Proof.
  unfold sum_durations. induction a as [|e t IH]; simpl; lia.
Qed.

(** X11.  Buckets only grow, and at their end: over any run of calls the
    keys present stay where they are, new keys coming after them, and a
    bucket keeps the events it has, in their order, new events coming
    after them, its total growing by the durations of the new events. *)
Theorem X11_buckets_grow_at_the_end (g : globals) (l : list occurrence) :
  (exists new, keys (event_dict (add_events g l))
               = (keys (event_dict g) ++ new)%list)
  /\ forall k tot evs,
      dict_get k (event_dict g) = Some (tot, evs) ->
      exists extra,
        dict_get k (event_dict (add_events g l))
        = Some (tot + sum_durations extra, (evs ++ extra)%list).
Proof.
  revert g. induction l as [|[[dt dur] s] t IH]; intros g; simpl.
  - split; [exists []; now rewrite app_nil_r|].
    intros k tot evs Hk. exists []. rewrite Hk, app_nil_r.
    unfold sum_durations. simpl. do 2 f_equal. lia.
  - destruct (add_event_grows g dt dur s) as [[n1 H1] H2].
    destruct (IH (add_event g dt dur s)) as [[n2 H3] H4]. split.
    + exists (n1 ++ n2)%list. now rewrite H3, H1, app_assoc.
    + intros k tot evs Hk. destruct (H2 _ _ _ Hk) as [x1 Hx1].
      destruct (H4 _ _ _ Hx1) as [x2 Hx2].
      exists (x1 ++ x2)%list.
      rewrite Hx2, sum_durations_append, app_assoc. do 2 f_equal. lia.
Qed.

(** ** More on the main loop *)

(** A property kept by the three ways the loop changes the state is kept
    by the whole loop. *)
Lemma run_preserves (P : state -> Prop) (feed : list vevent) :
  (forall c i e st,
      In (TimedEvent c) feed -> is_series (TimedEvent c) = true ->
      find (candidate c i) (recurrence_list st) = Some e ->
      P st -> P (consume c e st)) ->
  (forall st dt dur s, P st -> P (call_add_event st None dt dur s)) ->
  (forall e st, P st -> P (raise e st)) ->
  forall l st, incl l feed -> P st -> P (fold_left process_vevent l st).
Proof.
  intros Hc Ha Hr.
  assert (Hi : forall c, In (TimedEvent c) feed ->
                         is_series (TimedEvent c) = true ->
                         forall instants st,
                           P st -> P (fold_left (process_instant c) instants st)).
  { intros c Hin Hs. induction instants as [|i t IH]; intros st H; simpl;
      [assumption|].
    apply IH. rewrite process_instant_spec.
    destruct (find (candidate c i) (recurrence_list st)) eqn:Hf.
    - now apply (Hc c i).
    - now apply Ha. }
  induction l as [|v t IH]; intros st Hl H; simpl; [assumption|].
  apply IH; [intros x Hx; apply Hl; now right|].
  assert (Hv : In v feed) by (apply Hl; now left).
  unfold process_vevent. destruct (raised st); [assumption|].
  destruct v as [| c]; [assumption|].
  destruct (RECURRENCE_ID c) eqn:Hid; [assumption|].
  destruct (rrule_text c) as [text|] eqn:Hrule; [|now apply Ha].
  destruct (rrulestr text (DTSTART c)) as [generated|e]; [|now apply Hr].
  apply Hi; try assumption. simpl. now rewrite Hid, Hrule.
Qed.

Lemma forallb_split (A : Type) (p : A -> bool) (l : list A) :
  forallb p l = false ->
  exists pre v post, l = (pre ++ v :: post)%list
                     /\ forallb p pre = true /\ p v = false.
Proof.
  induction l as [|a t IH]; simpl; [discriminate|].
  destruct (p a) eqn:E; simpl; intros H.
  - destruct (IH H) as (pre & v & post & -> & Hp & Hv).
    exists (a :: pre), v, post. simpl. rewrite E. auto.
  - exists [], a, t. auto.
Qed.

(** X13.  The log holds one record for each override consumed, in the
    order of consumption, exact matches included: its records all read
    "relaxed matching" and name, one by one, the UIDs of the records
    taken out of the pool. *)
Theorem X13_one_log_record_per_consumed_override (feed : list vevent) :
  let st := run feed in
  map log_uid (log st) = map UID (consumed st)
  /\ Forall (fun r => log_msg r = "relaxed matching") (log st)
  /\ List.length (log st) = List.length (consumed st).
Proof.
  intros st.
  assert (H : map log_uid (log st) = map UID (consumed st)
              /\ Forall (fun r => log_msg r = "relaxed matching") (log st)).
  { apply (run_preserves
             (fun st => map log_uid (log st) = map UID (consumed st)
                        /\ Forall (fun r => log_msg r = "relaxed matching")
                                  (log st)) feed).
    - intros c i e st0 _ _ Hf [H1 H2]. simpl.
      apply find_some in Hf as [_ Hf]. unfold candidate, same_series in Hf.
      apply andb_true_iff in Hf as [Hu _]. apply String.eqb_eq in Hu.
      rewrite !map_app, H1. simpl. rewrite Hu. split; [reflexivity|].
      apply Forall_app. split; [assumption|now constructor].
    - intros st0 dt dur s H. exact H.
    - intros e0 st0 H. exact H.
    - apply incl_refl.
    - simpl. split; [reflexivity|constructor]. }
  destruct H as [H1 H2]. repeat split; try assumption.
  now rewrite <- (length_map log_uid), H1, length_map.
Qed.

(** X14.  Overrides of a UID that no series of the feed has are left
    alone: none of them is consumed and all of them are still in the
    pool, in their order, when the run ends. *)
Theorem X14_overrides_without_series_stay
        (feed : list vevent) (u : string) :
  forallb (fun v => negb (is_series v && String.eqb (uid_of v) u)) feed
  = true ->
  let st := run feed in
  filter (fun e => String.eqb (UID e) u) (recurrence_list st)
  = filter (fun e => String.eqb (UID e) u) (collect feed)
  /\ Forall (fun e => UID e <> u) (consumed st).
Proof.
  intros Hu st.
  apply (run_preserves
           (fun st => filter (fun e => String.eqb (UID e) u)
                             (recurrence_list st)
                      = filter (fun e => String.eqb (UID e) u) (collect feed)
                      /\ Forall (fun e => UID e <> u) (consumed st)) feed).
  - intros c i e st0 Hin Hs Hf [H1 H2]. simpl.
    rewrite forallb_forall in Hu. specialize (Hu _ Hin).
    rewrite Hs in Hu. simpl in Hu. apply negb_true_iff in Hu.
    apply String.eqb_neq in Hu.
    destruct (list_remove_find _ _ _ _ Hf) as (l1 & l2 & Hl & Hr & _).
    apply find_some in Hf as [_ Hf]. unfold candidate, same_series in Hf.
    apply andb_true_iff in Hf as [He _]. apply String.eqb_eq in He.
    assert (Hne : UID e <> u) by congruence.
    split.
    + rewrite Hr, <- H1, Hl, !filter_app. simpl.
      apply String.eqb_neq in Hne. now rewrite Hne.
    + apply Forall_app. split; [assumption|now constructor].
  - intros st0 dt dur s H. exact H.
  - intros e0 st0 H. exact H.
  - apply incl_refl.
  - simpl. split; [reflexivity|constructor].
Qed.

(** ** More on the expansion *)

Lemma dt_eqb_eq (a b : datetime) :
  dt_eqb a b = true <-> timestamp a = timestamp b.
Proof. unfold dt_eqb. apply Z.eqb_eq. Qed.

Lemma HdRel_dt_lt_eq (x y : datetime) (l : list datetime) :
  timestamp y = timestamp x -> HdRel dt_lt x l -> HdRel dt_lt y l.
Proof.
  intros E H. destruct H; constructor. unfold dt_lt in *. lia.
Qed.

Lemma drop_repeats_ascending (l : list datetime) (y : datetime) :
  Sorted dt_le (y :: l) ->
  Sorted dt_lt (drop_repeats (Some y) l)
  /\ HdRel dt_lt y (drop_repeats (Some y) l).
Proof.
  revert y. induction l as [|x t IH]; intros y H; simpl.
  - split; constructor.
  - inversion H as [|? ? Hs Hh]; subst. inversion Hh; subst.
    destruct (IH x Hs) as [Ha Hb].
    destruct (dt_eqb y x) eqn:E.
    + apply dt_eqb_eq in E. split; [assumption|].
      now apply (HdRel_dt_lt_eq x).
    + assert (dt_lt y x).
      { unfold dt_eqb in E. apply Z.eqb_neq in E. unfold dt_le, dt_lt in *.
        lia. }
      split; constructor; assumption.
Qed.

Lemma StronglySorted_filter (A : Type) (R : A -> A -> Prop)
      (p : A -> bool) (l : list A) :
  StronglySorted R l -> StronglySorted R (filter p l).
Proof.
  induction 1 as [|a l Hs IH Hf]; simpl; [constructor|].
  destruct (p a); [|assumption].
  constructor; [assumption|].
  rewrite Forall_forall in *. intros x Hx. apply filter_In in Hx as [Hx _].
  now apply Hf.
Qed.

(** X15.  When the rule generates its instants in ascending order, as
    dateutil does, the expansion is strictly ascending: in chronological
    order and with no instant twice, even where the generated list
    repeats one. *)
Theorem X15_expansion_is_strictly_ascending
        (c : component) (generated : list datetime) :
  Sorted dt_le generated -> StronglySorted dt_lt (expand c generated).
Proof.
  intros H. unfold expand, rruleset_list.
  apply StronglySorted_filter. apply Sorted_StronglySorted.
  - intros a b d. unfold dt_lt. lia.
  - destruct generated as [|x t]; simpl; [constructor|].
    destruct (drop_repeats_ascending t x H). now constructor.
Qed.

Lemma drop_repeats_keeps (l : list datetime) (last : option datetime)
      (g : datetime) :
  In g l ->
  (exists x, In x (drop_repeats last l) /\ dt_eqb x g = true)
  \/ (exists y, last = Some y /\ dt_eqb y g = true).
Proof.
  revert last. induction l as [|x t IH]; intros last; simpl; [intros []|].
  intros [->|Hg].
  - destruct last as [y|]; [destruct (dt_eqb y g) eqn:E|].
    + right. now exists y.
    + left. exists g. split; [now left|apply dt_eqb_refl].
    + left. exists g. split; [now left|apply dt_eqb_refl].
  - destruct (IH (Some x) Hg) as [(z & Hz & Ez)|(y & Hy & Ey)].
    + left. exists z. split; [|assumption].
      destruct last as [y|]; [destruct (dt_eqb y x)|]; simpl; auto.
    + injection Hy as <-.
      destruct last as [y|]; [destruct (dt_eqb y x) eqn:E|].
      * right. exists y. split; [reflexivity|].
        apply dt_eqb_eq in E, Ey. apply dt_eqb_eq. congruence.
      * left. exists x. split; [now left|assumption].
      * left. exists x. split; [now left|assumption].
Qed.

(** X16.  Exclusion dates take out nothing else: a generated instant
    that equals none of the exclusion dates, as normalized, is in the
    expansion, as itself or as an equal instant generated before it. *)
Theorem X16_only_excluded_instants_are_dropped
        (c : component) (generated : list datetime) (g : datetime) :
  In g generated ->
  existsb (dt_eqb g) (exdates_of c) = false ->
  exists x, In x (expand c generated) /\ dt_eqb x g = true.
Proof.
  intros Hg Hex.
  destruct (drop_repeats_keeps generated None g Hg)
    as [(x & Hx & Ex)|(y & Hy & _)]; [|discriminate].
  exists x. split; [|assumption].
  unfold expand, rruleset_list. apply filter_In. split; [assumption|].
  apply negb_true_iff. rewrite <- Hex.
  apply dt_eqb_eq in Ex. unfold dt_eqb. now rewrite Ex.
Qed.

Lemma find_ext (A : Type) (p q : A -> bool) (l : list A) :
  (forall a, p a = q a) -> find p l = find q l.
Proof.
  intros H. induction l as [|a t IH]; simpl; [reflexivity|].
  now rewrite H, IH.
Qed.

(** X17.  Matching looks at instants, not at the zone they are written
    in: for a generated instant moved to any other UTC offset the loop
    finds the same candidates and exact matches, consumes the same
    record, leaves the same pool and writes the same log. *)
Theorem X17_matching_ignores_the_zone_of_the_instant
        (c : component) (st : state) (i : datetime) (tz : tzinfo) :
  (forall e, candidate c (astimezone i tz) e = candidate c i e
             /\ exact_match (astimezone i tz) e = exact_match i e)
  /\ consumed (process_instant c st (astimezone i tz))
     = consumed (process_instant c st i)
  /\ recurrence_list (process_instant c st (astimezone i tz))
     = recurrence_list (process_instant c st i)
  /\ log (process_instant c st (astimezone i tz))
     = log (process_instant c st i).
Proof.
  assert (Hu : astimezone (astimezone i tz) UTC = astimezone i UTC)
    by (unfold astimezone at 1 3; now rewrite timestamp_astimezone).
  assert (Hc : forall e, candidate c (astimezone i tz) e = candidate c i e)
    by (intros e; unfold candidate, date_match; now rewrite Hu).
  split.
  - intros e. split; [apply Hc|]. unfold exact_match. now rewrite Hu.
  - rewrite !process_instant_spec.
    rewrite (find_ext _ _ _ (recurrence_list st) Hc).
    destruct (find (candidate c i) (recurrence_list st)); repeat split.
Qed.

(** ** The default pattern *)

Lemma span_class_spec (s : string) :
  s = (fst (span_class s) ++ snd (span_class s))%string
  /\ all_class (fst (span_class s)) = true
  /\ match snd (span_class s) with
     | String ch _ => in_cregex_class ch = false
     | EmptyString => True
     end.
Proof.
  induction s as [|ch t IH]; simpl; [auto|].
  destruct (in_cregex_class ch) eqn:E.
  - destruct (span_class t) as [p r]. simpl in *.
    destruct IH as (H1 & H2 & H3). rewrite E, H2. repeat split; auto.
    now rewrite <- H1.
  - simpl. auto.
Qed.

Lemma span_class_app (p r : string) :
  all_class p = true ->
  span_class (p ++ r)
  = ((p ++ fst (span_class r))%string, snd (span_class r)).
Proof.
  induction p as [|ch t IH]; simpl; intros H.
  - now destruct (span_class r).
  - apply andb_true_iff in H as [Hc Ht]. rewrite Hc, (IH Ht). reflexivity.
Qed.

Lemma prefix_app (a b : string) : prefix a (a ++ b) = true.
Proof.
  induction a as [|ch t IH]; simpl; [now destruct b|].
  destruct (ascii_dec ch ch); [assumption|congruence].
Qed.

Lemma append_nil_r' (a : string) : (a ++ EmptyString)%string = a.
Proof. induction a as [|ch t IH]; simpl; [reflexivity|now rewrite IH]. Qed.

Lemma append_assoc (a b d : string) :
  ((a ++ b) ++ d)%string = (a ++ (b ++ d))%string.
Proof. induction a as [|ch t IH]; simpl; [reflexivity|now rewrite IH]. Qed.

Lemma append_length (a b : string) :
  String.length (a ++ b) = (String.length a + String.length b)%nat.
Proof. induction a as [|ch t IH]; simpl; [reflexivity|now rewrite IH]. Qed.

Lemma prefix_split (a b : string) :
  prefix a b = true -> exists b', b = (a ++ b')%string.
Proof.
  revert b. induction a as [|ch t IH]; intros b H.
  - exists b. reflexivity.
  - destruct b as [|ch' b']; simpl in H; [discriminate|].
    destruct (ascii_dec ch ch') as [<-|]; [|discriminate].
    destruct (IH b' H) as [r ->]. exists r. reflexivity.
Qed.

Lemma cregex_dash_sound (s m : string) :
  cregex_dash s = Some m ->
  prefix m s = true
  /\ exists p, all_class p = true /\ m = (p ++ " - ")%string
               /\ (1 <= String.length p <= 7)%nat.
Proof.
  unfold cregex_dash. destruct (span_class_spec s) as (H1 & H2 & _).
  destruct (span_class s) as [p r]. cbn [fst snd] in H1, H2.
  destruct (((1 <=? String.length p)%nat && (String.length p <=? 7)%nat)
            && prefix " - " r) eqn:E; [|discriminate].
  intros H. injection H as <-.
  apply andb_true_iff in E as [E Hp]. apply andb_true_iff in E as [E1 E2].
  apply Nat.leb_le in E1, E2.
  destruct (prefix_split _ _ Hp) as [r' ->]. split.
  - rewrite H1, <- append_assoc. apply prefix_app.
  - exists p. repeat split; assumption.
Qed.

Lemma cregex_bracket_sound (s m : string) :
  cregex_bracket s = Some m ->
  prefix m s = true
  /\ exists p, all_class p = true /\ m = ("[" ++ p ++ "]")%string.
Proof.
  destruct s as [|ch t]; [discriminate|].
  destruct ch as [[] [] [] [] [] [] [] []]; try discriminate.
  cbn [cregex_bracket]. destruct (span_class_spec t) as (H1 & H2 & _).
  destruct (span_class t) as [p r]. cbn [fst snd] in H1, H2.
  destruct r as [|ch' r']; [discriminate|].
  destruct ch' as [[] [] [] [] [] [] [] []]; try discriminate.
  intros H. injection H as <-. split.
  - rewrite H1.
    change (prefix ("[" ++ (p ++ "]")) ("[" ++ (p ++ ("]" ++ r'))) = true).
    rewrite <- !append_assoc. apply prefix_app.
  - now exists p.
Qed.

(** X18.  What the default pattern matches is the start of the title and
    has one of two shapes: class characters, none or more, between square
    brackets; or one to seven class characters followed by space, hyphen,
    space. *)
Theorem X18_default_pattern_matches_a_prefix (s m : string) :
  default_cregex_match s = Some m ->
  prefix m s = true
  /\ exists p,
      all_class p = true
      /\ (m = ("[" ++ p ++ "]")%string
          \/ (m = (p ++ " - ")%string
              /\ (1 <= String.length p <= 7)%nat)).
Proof.
  unfold default_cregex_match.
  destruct (cregex_bracket s) as [m'|] eqn:E; intros H.
  - injection H as <-.
    destruct (cregex_bracket_sound _ _ E) as (H1 & p & H2 & H3).
    split; [assumption|]. exists p. auto.
  - destruct (cregex_dash_sound _ _ H) as (H1 & p & H2 & H3 & H4).
    split; [assumption|]. exists p. auto.
Qed.

(** X19.  The default pattern matches every title of the two shapes:
    class characters between square brackets at the start are matched,
    brackets included; one to seven class characters followed by space,
    hyphen, space are matched up to the second space; and a title that
    starts with more than seven class characters is not matched at
    all. *)
Theorem X19_default_pattern_matches_both_shapes (p r : string) :
  all_class p = true ->
  default_cregex_match ("[" ++ p ++ "]" ++ r) = Some ("[" ++ p ++ "]")%string
  /\ ((1 <= String.length p <= 7)%nat ->
      default_cregex_match (p ++ " - " ++ r) = Some (p ++ " - ")%string)
  /\ ((7 < String.length p)%nat -> default_cregex_match (p ++ r) = None).
Proof.
  intros Hp.
  assert (Hnb : forall q, (1 <= String.length p)%nat ->
                          cregex_bracket (p ++ q) = None).
  { intros q Hl. destruct p as [|ch t]; [simpl in Hl; lia|].
    simpl in Hp. apply andb_true_iff in Hp as [Hc _].
    simpl. destruct ch as [[] [] [] [] [] [] [] []];
      try reflexivity; discriminate Hc. }
  split; [|split].
  - assert (Hb : cregex_bracket (String "[" (p ++ String "]" r))
                 = Some (String "[" (p ++ "]"))%string).
    { cbn [cregex_bracket]. rewrite (span_class_app p _ Hp).
      cbn. now rewrite append_nil_r'. }
    unfold default_cregex_match.
    change ("[" ++ p ++ "]" ++ r)%string
      with (String "[" (p ++ String "]" r))%string.
    now rewrite Hb.
  - intros Hl. unfold default_cregex_match.
    rewrite Hnb by lia. unfold cregex_dash.
    assert (Hs : span_class (" - " ++ r) = (EmptyString, (" - " ++ r)%string))
      by reflexivity.
    rewrite (span_class_app p _ Hp), Hs. cbn [fst snd].
    rewrite append_nil_r', prefix_app.
    destruct Hl as [H1 H2]. apply Nat.leb_le in H1, H2.
    now rewrite H1, H2.
  - intros Hl. unfold default_cregex_match.
    rewrite Hnb by lia. unfold cregex_dash.
    rewrite (span_class_app p _ Hp).
    destruct (span_class r) as [p' r']. simpl.
    rewrite append_length.
    replace (String.length p + String.length p' <=? 7)%nat with false
      by (symmetry; apply Nat.leb_gt; lia).
    now rewrite andb_false_r.
Qed.

Lemma process_vevent_calls (st : state) (v : vevent) :
  raised st = None -> malformed v = false ->
  List.length (calls (process_vevent st v))
  = (List.length (calls st) + instants_of v)%nat.
Proof.
  intros H Hm. unfold process_vevent, instants_of. rewrite H.
  destruct v as [| c]; [lia|]. simpl in Hm.
  destruct (RECURRENCE_ID c); [lia|].
  destruct (rrule_text c) as [text|].
  - destruct (rrulestr text (DTSTART c)) as [generated|e]; [|discriminate].
    now rewrite process_instants_calls, length_app, resolve_all_length.
  - simpl. rewrite length_app. simpl. lia.
Qed.

(** X20.  When every rule parses, the run calls [add_event] once for
    each single event and once for each instant of each series, and not
    once more: overrides and date-only VEVENTs add no call of their own,
    an override only takes the place of the instant it matches. *)
Theorem X20_one_call_per_event_and_instant (feed : list vevent) :
  forallb (fun v => negb (malformed v)) feed = true ->
  List.length (calls (run feed)) = list_sum (map instants_of feed).
Proof.
  intros Hf.
  assert (H : forall l st,
             raised st = None ->
             forallb (fun v => negb (malformed v)) l = true ->
             List.length (calls (fold_left process_vevent l st))
             = (List.length (calls st) + list_sum (map instants_of l))%nat).
  { induction l as [|v t IH]; intros st Hr Hl; simpl; [lia|].
    simpl in Hl. apply andb_true_iff in Hl as [Hv Ht].
    apply negb_true_iff in Hv.
    rewrite IH; [|now apply process_vevent_ok|assumption].
    rewrite process_vevent_calls by assumption. lia. }
  unfold run. rewrite H; [reflexivity|reflexivity|assumption].
Qed.

End Script.

(** ** The claims on the samples *)

(** C1, as stated, fails.  The pool holds, in this order, an override of
    the second Monday whose RECURRENCE-ID is five minutes off and one whose
    RECURRENCE-ID is the generated instant: the second matches exactly and
    is still unconsumed, yet the loop stops at the first, which matches by
    date only, and consumes it. *)
Lemma C1_relaxed_match_taken_before_exact_match :
  let i := at_utc 19730 9 0 in
  let st := state0 [moved_off; moved_exact] in
  let st' := process_instant sample_dstart sample_dend default_cregex_match
                             weekly st i in
  In moved_exact (recurrence_list st)
  /\ same_series weekly moved_exact && exact_match i moved_exact = true
  /\ exact_match i moved_off = false
  /\ relaxed_only i moved_off = true
  /\ consumed st' = [moved_off]
  /\ recurrence_list st' = [moved_exact].
Proof.
  split; [right; left; reflexivity|].
  repeat split; reflexivity.
Qed.

(** C3, as stated, fails.  With [--week 2024-01-31] the window is the
    week 2024-W05.  A feed of a series whose rule is rejected and of a
    single event of that week ends with ValueError raised at the series:
    [add_event] was never called and nothing is printed, although the
    single event alone prints a header of ninety minutes and its bucket.
    The same happens with TypeError for a rule without FREQ, and a rule
    that icalendar parsed to nothing does not end the run. *)
Lemma C3_one_unparsable_rule_loses_the_report :
  let go := run week5_monday week5_sunday default_cregex_match
                sample_rrulestr in
  let cw := Bound (Some (2024, 5)) in
  let rep := report (Some week5_monday) (Some week5_sunday) cw in
  let review := mk_Event (at_utc 19753 9 0) 5400 "[DEV] review" 2024 5 "DEV" in
  resolve_window sample_week 19730
  = started (Some week5_monday) (Some week5_sunday) cw
  /\ sample_rrulestr "FREQ=WEEKLY;UNTIL=20240122T090000" (DTSTART broken)
     = Raises ValueError
  /\ rep (go [TimedEvent broken; TimedEvent single]) = loop_raised ValueError
  /\ calls (go [TimedEvent broken; TimedEvent single]) = []
  /\ rep (go [TimedEvent single])
     = loop_done
         (stdout [header_line (Some week5_monday) (Some week5_sunday)
                              (Some (2024, 5)) 5400;
                  category_line "DEV" 5400;
                  event_line review])
  /\ rep (go [TimedEvent no_freq; TimedEvent single]) = loop_raised TypeError
  /\ rep (go [TimedEvent empty_rule; TimedEvent single])
     = loop_done
         (stdout [header_line (Some week5_monday) (Some week5_sunday)
                              (Some (2024, 5)) 9000;
                  category_line "DEV" 5400;
                  event_line review;
                  category_line "OPS" 3600;
                  event_line (mk_Event (at_utc 19752 13 0) 3600 "[OPS] patch"
                                       2024 5 "OPS")]).
Proof. do 6 (split; [reflexivity|]). reflexivity. Qed.

Lemma C3_unparsable_rule_aborts_the_run_witness :
  let go := run sample_dstart sample_dend default_cregex_match
                sample_rrulestr in
  let feed := [TimedEvent single; TimedEvent broken; TimedEvent weekly] in
  let feed' := [TimedEvent single; TimedEvent no_freq; TimedEvent weekly] in
  (forallb (fun v => negb (malformed sample_rrulestr v)) [TimedEvent single]
   = true
   /\ RECURRENCE_ID broken = None
   /\ rrule_text broken = Some "FREQ=WEEKLY;UNTIL=20240122T090000"
   /\ sample_rrulestr "FREQ=WEEKLY;UNTIL=20240122T090000" (DTSTART broken)
      = Raises ValueError
   /\ rrule_text no_freq = Some "COUNT=4"
   /\ sample_rrulestr "COUNT=4" (DTSTART no_freq) = Raises TypeError)
  /\ (raised (go feed) = Some ValueError
      /\ forall ds de cw, report ds de cw (go feed) = loop_raised ValueError)
  /\ (raised (go feed') = Some TypeError
      /\ forall ds de cw, report ds de cw (go feed') = loop_raised TypeError)
  /\ map fst (calls (go feed)) = [(at_utc 19753 9 0, 5400, "[DEV] review")]
  /\ total_duration (glob (go feed')) = 5400.
Proof.
  pose proof (C3_unparsable_rule_aborts_the_run
                sample_dstart sample_dend default_cregex_match sample_rrulestr
                [TimedEvent single] [TimedEvent weekly] broken
                "FREQ=WEEKLY;UNTIL=20240122T090000" ValueError
                eq_refl eq_refl eq_refl eq_refl) as H.
  pose proof (C3_unparsable_rule_aborts_the_run
                sample_dstart sample_dend default_cregex_match sample_rrulestr
                [TimedEvent single] [TimedEvent weekly] no_freq
                "COUNT=4" TypeError
                eq_refl eq_refl eq_refl eq_refl) as H'.
  cbv zeta in H, H'.
  split; [do 5 (split; [reflexivity|]); reflexivity|].
  split; [split; [exact (proj1 (proj2 H))
                 |exact (proj1 (proj2 (proj2 (proj2 (proj2 H)))))]|].
  split; [split; [exact (proj1 (proj2 H'))
                 |exact (proj1 (proj2 (proj2 (proj2 (proj2 H')))))]|].
  split; reflexivity.
Defined.

(** C4, as stated, fails at an exclusion date tagged with another offset
    than the series.  10:00+01:00 on the third Monday is the instant
    09:00Z that the series generates, yet nothing is removed and the
    expansion holds an instant equal to it: the date is compared as
    10:00Z.  And where the generated list holds 09:00Z and 10:00Z, the
    re-tagged date is generated and removed, while 09:00Z, equal to the
    exclusion date, stays. *)
Lemma C4_retagged_exclusion_misses_its_instant :
  let e := {| wall := 19737 * 86400 + 10 * 3600; utcoffset := 3600 |} in
  EXDATE weekly_shifted = [e]
  /\ astimezone e (utcoffset (DTSTART weekly_shifted)) = at_utc 19737 9 0
  /\ replace_tzinfo e (utcoffset (DTSTART weekly_shifted))
     = at_utc 19737 10 0
  /\ In (at_utc 19737 9 0) four_mondays
  /\ dt_eqb (at_utc 19737 9 0) e = true
  /\ expand weekly_shifted four_mondays = four_mondays
  /\ existsb (fun x => dt_eqb x e) (expand weekly_shifted four_mondays)
     = true
  /\ expand weekly_shifted [at_utc 19737 9 0; at_utc 19737 10 0]
     = [at_utc 19737 9 0].
Proof.
  do 3 (split; [reflexivity|]).
  split; [right; right; left; reflexivity|].
  do 3 (split; [reflexivity|]). reflexivity.
Qed.

Lemma C4_exclusion_dates_are_removed_witness :
  let e := {| wall := 19737 * 86400 + 9 * 3600; utcoffset := 3600 |} in
  In e (EXDATE weekly_tagged)
  /\ expand weekly_tagged four_mondays
     = [at_utc 19723 9 0; at_utc 19730 9 0; at_utc 19744 9 0]
  /\ (forall g, utcoffset g = utcoffset (DTSTART weekly_tagged) ->
                (In g (expand weekly_tagged four_mondays)
                 <-> In g (drop_repeats None four_mondays)
                     /\ forall ex, In ex (EXDATE weekly_tagged) ->
                                   wall ex <> wall g)).
Proof.
  split; [left; reflexivity|split; [reflexivity|]].
  exact (proj2 (proj2 (proj2 (proj2 (proj2 (proj2
           (C4_exclusion_dates_are_removed
              weekly_tagged four_mondays
              {| wall := 19737 * 86400 + 9 * 3600; utcoffset := 3600 |}
              (or_introl eq_refl)))))))).
Defined.

Lemma C5_one_resolved_occurrence_per_instant_witness :
  let step := process_vevent sample_dstart sample_dend default_cregex_match
                             sample_rrulestr in
  let instants := [at_utc 19723 9 0; at_utc 19730 9 0; at_utc 19744 9 0] in
  (raised (state0 [moved_off]) = None
   /\ RECURRENCE_ID weekly_ex = None
   /\ rrule_text weekly_ex = Some "FREQ=WEEKLY;COUNT=4"
   /\ sample_rrulestr "FREQ=WEEKLY;COUNT=4" (DTSTART weekly_ex)
      = Generated four_mondays
   /\ expand weekly_ex four_mondays = instants)
  /\ (calls (step (state0 [moved_off]) (TimedEvent weekly_ex))
      = resolve_all weekly_ex [moved_off] instants
      /\ resolve_all weekly_ex [moved_off] instants
         = [((at_utc 19723 9 0, 3600, "[DEV] standup"), None);
            ((at_utc 19730 16 0, 7200, "[DEV] retro"), Some moved_off);
            ((at_utc 19744 9 0, 3600, "[DEV] standup"), None)])
  /\ (calls (step (state0 [moved_exact]) (TimedEvent weekly_ex))
      = resolve_all weekly_ex [moved_exact] instants
      /\ resolve_all weekly_ex [moved_exact] instants
         = [((at_utc 19723 9 0, 3600, "[DEV] standup"), None);
            ((at_utc 19730 14 0, 3600, "[DEV] standup"), Some moved_exact);
            ((at_utc 19744 9 0, 3600, "[DEV] standup"), None)]).
Proof.
  pose proof (C5_one_resolved_occurrence_per_instant
                sample_dstart sample_dend default_cregex_match sample_rrulestr
                weekly_ex (state0 [moved_off]) "FREQ=WEEKLY;COUNT=4"
                four_mondays eq_refl eq_refl eq_refl eq_refl) as H.
  pose proof (C5_one_resolved_occurrence_per_instant
                sample_dstart sample_dend default_cregex_match sample_rrulestr
                weekly_ex (state0 [moved_exact]) "FREQ=WEEKLY;COUNT=4"
                four_mondays eq_refl eq_refl eq_refl eq_refl) as H'.
  cbv zeta in H, H'.
  split; [do 4 (split; [reflexivity|]); reflexivity|].
  split; (split; [|reflexivity]).
  - exact (proj1 H).
  - exact (proj1 H').
Defined.

(** The example of C8: "Work", then "WORK". *)
Lemma C8_buckets_fold_case_witness :
  let add := add_event sample_dstart sample_dend default_cregex_match in
  event_dict (add (add globals0 (at_utc 19723 9 0) 3600 "[Work] plan")
                  (at_utc 19724 9 0) 1800 "[WORK] mail")
  = [("Work",
      (5400,
       [mk_Event (at_utc 19723 9 0) 3600 "[Work] plan" 2024 1 "Work";
        mk_Event (at_utc 19724 9 0) 1800 "[WORK] mail" 2024 1 "Work"]))].
Proof.
  exact (proj2 (proj2 (C8_buckets_fold_case
                         sample_dstart sample_dend default_cregex_match
                         [] globals0 (at_utc 19723 9 0) (at_utc 19724 9 0)
                         3600 1800 "[Work] plan" "[WORK] mail" ""))
               eq_refl eq_refl eq_refl).
Defined.

(** C9 fails on the code: the override whose RECURRENCE-ID is the
    generated instant itself is matched exactly, and its consumption
    writes a "relaxed matching" record to the log. *)
Theorem C9_exact_match_is_logged_as_relaxed :
  let i := at_utc 19730 9 0 in
  let st := state0 [moved_exact] in
  let st' := process_instant sample_dstart sample_dend default_cregex_match
                             weekly st i in
  exact_match i moved_exact = true
  /\ relaxed_only i moved_exact = false
  /\ consumed st' = [moved_exact]
  /\ log st' = [mk_log "relaxed matching" "series-1" "[DEV] standup"
                       (at_utc 19723 9 0) (at_utc 19723 10 0)].
Proof. repeat split; reflexivity. Qed.

Lemma C10_empty_category_is_counted_witness :
  let dt := at_utc 19723 9 0 in
  let g' := add_event sample_dstart sample_dend default_cregex_match
                      globals0 dt 3600 "[] planning" in
  in_window sample_dstart sample_dend dt = true
  /\ default_cregex_match (slice200 "[] planning") = Some "[]"
  /\ alnum_join "[]" = ""
  /\ g' = {| event_dict :=
               [("", (3600, [mk_Event dt 3600 "[] planning" 2024 1 ""]))];
             total_duration := 3600 |}
  /\ ("" <> CATEGORY_IGNORED
      /\ ev_category (stored_event default_cregex_match globals0 dt 3600
                                   "[] planning") = ""
      /\ total_duration g' = total_duration globals0 + 3600
      /\ dict_get "" (event_dict g')
         = Some match dict_get "" (event_dict globals0) with
                | Some (tot, evs) =>
                    (tot + 3600,
                     (evs ++ [stored_event default_cregex_match globals0 dt
                                           3600 "[] planning"])%list)
                | None =>
                    (3600, [stored_event default_cregex_match globals0 dt
                                         3600 "[] planning"])
                end
      /\ dict_get CATEGORY_IGNORED (event_dict g')
         = dict_get CATEGORY_IGNORED (event_dict globals0)).
Proof.
  do 4 (split; [reflexivity|]).
  exact (C10_empty_category_is_counted
           sample_dstart sample_dend default_cregex_match globals0
           (at_utc 19723 9 0) 3600 "[] planning" "[]"
           eq_refl eq_refl eq_refl).
Defined.

(** ** The scenarios of the specification *)

(** A single event of ninety minutes titled "[DEV] review", inside the
    window: one bucket DEV of 5400 seconds. *)
Example scenario_single_event :
  let st := run sample_dstart sample_dend default_cregex_match
                sample_rrulestr [TimedEvent single] in
  keys (event_dict (glob st)) = ["DEV"]
  /\ total_duration (glob st) = 5400.
Proof. split; reflexivity. Qed.

(** Four Mondays, the third excluded, no override: three occurrences of
    one hour each. *)
Example scenario_exclusion :
  let st := run sample_dstart sample_dend default_cregex_match
                sample_rrulestr [TimedEvent weekly_ex] in
  map fst (calls st)
  = [(at_utc 19723 9 0, 3600, "[DEV] standup");
     (at_utc 19730 9 0, 3600, "[DEV] standup");
     (at_utc 19744 9 0, 3600, "[DEV] standup")]
  /\ total_duration (glob st) = 10800.
Proof. split; reflexivity. Qed.

(** The same series with an override five minutes off the second Monday:
    the override is taken by its date, its own start, duration and title
    are used, and one record is written to the log. *)
Example scenario_relaxed_match :
  let st := run sample_dstart sample_dend default_cregex_match
                sample_rrulestr [TimedEvent weekly_ex; TimedEvent moved_off] in
  map fst (calls st)
  = [(at_utc 19723 9 0, 3600, "[DEV] standup");
     (at_utc 19730 16 0, 7200, "[DEV] retro");
     (at_utc 19744 9 0, 3600, "[DEV] standup")]
  /\ consumed st = [moved_off]
  /\ recurrence_list st = []
  /\ List.length (log st) = 1%nat.
Proof. repeat split; reflexivity. Qed.

(** An override whose UID no series has stays in the pool and changes no
    bucket. *)
Example scenario_orphan_override :
  let go := run sample_dstart sample_dend default_cregex_match
                sample_rrulestr in
  let orphan :=
    {| UID := "series-9"; SUMMARY := Some "[DEV] lost";
       DTSTART := at_utc 19730 14 0; DTEND := at_utc 19730 15 0;
       RRULE := None; EXDATE := [];
       RECURRENCE_ID := Some (at_utc 19730 9 0) |} in
  recurrence_list (go [TimedEvent weekly; TimedEvent orphan]) = [orphan]
  /\ glob (go [TimedEvent weekly; TimedEvent orphan])
     = glob (go [TimedEvent weekly]).
Proof. split; reflexivity. Qed.

(** ** The further properties on samples *)

Lemma X5_file_found_in_last_directory_witness :
  let w1 := [(".", ["sub"], ["a.ics"; "b.ics"])] in
  first_ics ["notes.txt"; "c.ics"] = Some "c.ics"
  /\ Forall (fun e : string * list string * list string =>
               first_ics (snd e) = None) []
  /\ find_file None (w1 ++ [("./sub", [], ["notes.txt"; "c.ics"])])
     = Some "c.ics".
Proof.
  split; [reflexivity|split; [constructor|]].
  exact (proj1 (proj2 (proj2
           (X5_file_found_in_last_directory
              [] [(".", ["sub"], ["a.ics"; "b.ics"])] [] "./sub" []
              ["notes.txt"; "c.ics"] "c.ics")))
           eq_refl (Forall_nil _)).
Defined.

Lemma X6_unfolding_undoes_folding_witness :
  let t := String "A" (String LF (String TAB "BC")) in
  has_tab "ABC" = false /\ folded "ABC" t /\ unfold_lines t = "ABC".
Proof.
  assert (Hf : folded "ABC" (String "A" (String LF (String TAB "BC"))))
    by (apply folded_char, folded_break;
        repeat apply folded_char; apply folded_nil).
  split; [reflexivity|split; [exact Hf|]].
  exact (X6_unfolding_undoes_folding
           "ABC" (String "A" (String LF (String TAB "BC"))) eq_refl Hf).
Defined.

Lemma X14_overrides_without_series_stay_witness :
  let feed := [TimedEvent weekly; TimedEvent moved_off; TimedEvent stray] in
  let st := run sample_dstart sample_dend default_cregex_match
                sample_rrulestr feed in
  let mine := fun e => String.eqb (UID e) "series-9" in
  forallb (fun v => negb (is_series v && String.eqb (uid_of v) "series-9"))
          feed = true
  /\ consumed st = [moved_off]
  /\ (filter mine (recurrence_list st) = filter mine (collect feed)
      /\ Forall (fun e => UID e <> "series-9") (consumed st)).
Proof.
  split; [reflexivity|split; [reflexivity|]].
  exact (X14_overrides_without_series_stay
           sample_dstart sample_dend default_cregex_match sample_rrulestr
           [TimedEvent weekly; TimedEvent moved_off; TimedEvent stray]
           "series-9" eq_refl).
Defined.

Lemma four_mondays_ascending : Sorted dt_le four_mondays.
Proof.
  unfold four_mondays.
  repeat first [apply Sorted_nil | apply Sorted_cons
               | apply HdRel_nil | apply HdRel_cons];
    unfold dt_le; apply Z.leb_le; reflexivity.
Defined.

Lemma X15_expansion_is_strictly_ascending_witness :
  Sorted dt_le four_mondays
  /\ StronglySorted dt_lt (expand weekly_ex four_mondays).
Proof.
  split; [exact four_mondays_ascending|].
  exact (X15_expansion_is_strictly_ascending
           weekly_ex four_mondays four_mondays_ascending).
Defined.

Lemma X16_only_excluded_instants_are_dropped_witness :
  let g := at_utc 19730 9 0 in
  In g four_mondays
  /\ existsb (dt_eqb g) (exdates_of weekly_ex) = false
  /\ exists x, In x (expand weekly_ex four_mondays) /\ dt_eqb x g = true.
Proof.
  split; [right; left; reflexivity|split; [reflexivity|]].
  exact (X16_only_excluded_instants_are_dropped
           weekly_ex four_mondays (at_utc 19730 9 0)
           (or_intror (or_introl eq_refl)) eq_refl).
Defined.

Lemma X18_default_pattern_matches_a_prefix_witness :
  default_cregex_match "[DEV] standup" = Some "[DEV]"
  /\ (prefix "[DEV]" "[DEV] standup" = true
      /\ exists p,
          all_class p = true
          /\ ("[DEV]" = ("[" ++ p ++ "]")%string
              \/ ("[DEV]" = (p ++ " - ")%string
                  /\ (1 <= String.length p <= 7)%nat))).
Proof.
  split; [reflexivity|].
  exact (X18_default_pattern_matches_a_prefix
           "[DEV] standup" "[DEV]" eq_refl).
Defined.

Lemma X19_default_pattern_matches_both_shapes_witness :
  all_class "DEV" = true
  /\ (default_cregex_match ("[" ++ "DEV" ++ "]" ++ " standup")
      = Some ("[" ++ "DEV" ++ "]")%string
      /\ ((1 <= String.length "DEV" <= 7)%nat ->
          default_cregex_match ("DEV" ++ " - " ++ " standup")
          = Some ("DEV" ++ " - ")%string)
      /\ ((7 < String.length "DEV")%nat ->
          default_cregex_match ("DEV" ++ " standup") = None)).
Proof.
  split; [reflexivity|].
  exact (X19_default_pattern_matches_both_shapes "DEV" " standup" eq_refl).
Defined.

Lemma X20_one_call_per_event_and_instant_witness :
  let feed := [TimedEvent single; TimedEvent weekly_ex; TimedEvent moved_off;
               DateEvent "day-1" (Some "holiday") 19730 19731] in
  forallb (fun v => negb (malformed sample_rrulestr v)) feed = true
  /\ list_sum (map (instants_of sample_rrulestr) feed) = 4%nat
  /\ List.length (calls (run sample_dstart sample_dend default_cregex_match
                              sample_rrulestr feed))
     = list_sum (map (instants_of sample_rrulestr) feed).
Proof.
  split; [reflexivity|split; [reflexivity|]].
  exact (X20_one_call_per_event_and_instant
           sample_dstart sample_dend default_cregex_match sample_rrulestr
           [TimedEvent single; TimedEvent weekly_ex; TimedEvent moved_off;
            DateEvent "day-1" (Some "holiday") 19730 19731] eq_refl).
Defined.
